(** * serial_scope: frame synchronisation, decoding and the consumer tick

    A shallow embedding of [serial_scope.py].  The acquisition thread
    ([SerialThread]) and the window object ([MainWindow]) are records that are
    threaded explicitly through their methods; code that can raise returns a
    [result]; Python floats are IEEE binary64 values ([PrimFloat.float]),
    Python ints are [Z], [bytes]/[bytearray] are [list byte] and [str] is
    [string] (one [ascii] per code point below 256). *)

From Stdlib Require Import ZArith NArith List Bool Ascii String Floats Lia.
From Stdlib Require Import Wellfounded.
From Stdlib Require Import Strings.Byte.
From Equations Require Import Equations.
From stdpp Require Import base list gmap strings.
Import ListNotations.

Local Open Scope Z_scope.

(** ** Exceptions *)

Inductive exn : Set :=
| ValueError | KeyError | IndexError | ZeroDivisionError | OverflowError | OSError.

Inductive result (A : Type) : Type :=
| Ok (a : A)
| Raise (e : exn).
Arguments Ok {A} a.
Arguments Raise {A} e.

Definition bind {A B} (r : result A) (k : A -> result B) : result B :=
  match r with
  | Ok a => k a
  | Raise e => Raise e
  end.

Notation "'let*' x ':=' r 'in' k" := (bind r (fun x => k))
  (at level 10, x name, r at level 100, k at level 200).

Definition is_ok {A} (r : result A) : bool :=
  match r with Ok _ => true | Raise _ => false end.

Definition of_option {A} (e : exn) (o : option A) : result A :=
  match o with Some a => Ok a | None => Raise e end.

(** ** The Python built-ins the program relies on *)

Module Py.

(** *** Numbers *)

(** A Python number is an [int] or a [float]; [current_coeffs] mixes both. *)
Inductive num : Set :=
| Int (z : Z)
| Float (f : float).

(** [m * 2^e] rounded to the nearest binary64 value, ties to even. *)
Definition round_scaled (m e : Z) : float :=
  SF2Prim (binary_normalize prec emax m e false).

(** The least magnitude that rounds to [2^1024], where binary64 ends:
    halfway between the largest float and [2^1024]. *)
Definition overflow_threshold : Z := 2 ^ 1024 - 2 ^ 970.

(** [float(z)]: correctly rounded, [OverflowError] when out of range. *)
Definition float_of_int (z : Z) : result float :=
  if Z.abs z <? overflow_threshold then Ok (round_scaled z 0)
  else Raise OverflowError.

(** [a / b] on two ints: the correctly rounded quotient ([OverflowError]
    when it does not fit, a zero signed like [b] when [a] is 0).  The
    quotient is first taken with 64 spare bits and a sticky bit (round to
    odd), which the final rounding to 53 bits cannot tell from the exact
    rational. *)
Definition int_truediv (a b : Z) : result float :=
  if b =? 0 then Raise ZeroDivisionError
  else if overflow_threshold * Z.abs b <=? Z.abs a then Raise OverflowError
  else
    let k := Z.log2 (Z.abs b) + 64 in
    let n := Z.abs a * 2 ^ k in
    let q := n / Z.abs b in
    let sticky := if n mod Z.abs b =? 0 then 0 else 1 in
    let m := Z.sgn a * Z.sgn b * (2 * q + sticky) in
    Ok (SF2Prim (binary_normalize prec emax m (- (k + 1))
                   (xorb (a <? 0) (b <? 0)))).

(** [x / y] on two floats. *)
Definition float_truediv (x y : float) : result float :=
  if PrimFloat.eqb y 0 then Raise ZeroDivisionError else Ok (PrimFloat.div x y).

(** [x / y]: true division, always a float. *)
Definition truediv (x y : num) : result float :=
  match x, y with
  | Int a, Int b => int_truediv a b
  | Int a, Float g => let* f := float_of_int a in float_truediv f g
  | Float f, Int b => let* g := float_of_int b in float_truediv f g
  | Float f, Float g => float_truediv f g
  end.

(** [x * y]. *)
Definition mul (x y : num) : result num :=
  match x, y with
  | Int a, Int b => Ok (Int (a * b))
  | Int a, Float g => let* f := float_of_int a in Ok (Float (PrimFloat.mul f g))
  | Float f, Int b => let* g := float_of_int b in Ok (Float (PrimFloat.mul f g))
  | Float f, Float g => Ok (Float (PrimFloat.mul f g))
  end.

(** [2 ** e] for an int [e]: an int when [e >= 0]; otherwise Python computes
    [float(2) ** float(e)], the power of two [2^e] as a float (zero once it
    underflows). *)
Definition pow2 (e : Z) : result num :=
  if 0 <=? e then Ok (Int (2 ^ e))
  else let* _ := float_of_int e in Ok (Float (round_scaled 1 e)).

(** *** Sequences *)

(** Clamp a slice bound against a sequence of length [n]. *)
Definition slice_bound (n i : Z) : Z :=
  if i <? 0 then Z.max 0 (n + i) else Z.min i n.

Definition slice_start (n : Z) (start : option Z) : nat :=
  Z.to_nat (match start with Some i => slice_bound n i | None => 0 end).

Definition slice_stop (n : Z) (stop : option Z) : nat :=
  Z.to_nat (match stop with Some j => slice_bound n j | None => n end).

(** [l[start:stop]] *)
Definition slice {A} (l : list A) (start stop : option Z) : list A :=
  let n := Z.of_nat (length l) in
  let s := slice_start n start in
  let e := slice_stop n stop in
  firstn (e - s) (skipn s l).

(** [del l[start:stop]] *)
Definition del_slice {A} (l : list A) (start stop : option Z) : list A :=
  let n := Z.of_nat (length l) in
  let s := slice_start n start in
  let e := slice_stop n stop in
  firstn s l ++ skipn (Nat.max s e) l.

(** [l[i]] for [i >= 0] *)
Definition index {A} (l : list A) (i : nat) : result A :=
  of_option IndexError (nth_error l i).

(** *** Bytes *)

Definition int_of_byte (b : byte) : Z := Z.of_N (Byte.to_N b).

(** [int.from_bytes(bs, byteorder='big', signed=False)] *)
Definition int_from_bytes_big (bs : list byte) : Z :=
  fold_left (fun acc b => acc * 256 + int_of_byte b) bs 0.

(** [bytearray.append(v)] *)
Definition bytearray_append (p : list byte) (v : Z) : result (list byte) :=
  if (0 <=? v) && (v <=? 255)
  then let* b := of_option ValueError (Byte.of_N (Z.to_N v)) in Ok (p ++ [b])
  else Raise ValueError.

(** *** Strings *)

Definition code (c : ascii) : N := N_of_ascii c.

(** [str.isspace] on one code point below 256. *)
Definition is_space (c : ascii) : bool :=
  let n := code c in
  (((9 <=? n) && (n <=? 13)) || ((28 <=? n) && (n <=? 32))
   || (n =? 133) || (n =? 160))%N.

Fixpoint lstrip (s : string) : string :=
  match s with
  | String c r => if is_space c then lstrip r else s
  | EmptyString => EmptyString
  end.

Fixpoint rstrip (s : string) : string :=
  match s with
  | String c r =>
      match rstrip r with
      | EmptyString => if is_space c then EmptyString else String c EmptyString
      | r' => String c r'
      end
  | EmptyString => EmptyString
  end.

(** [s.strip()] *)
Definition strip (s : string) : string := rstrip (lstrip s).

(** The space test of the C parser behind [int()]: ASCII only. *)
Definition is_c_space (c : ascii) : bool :=
  let n := code c in (((9 <=? n) && (n <=? 13)) || (n =? 32))%N.

(** [int()] first maps every non-ASCII space to a blank and every other
    non-ASCII code point to a character no number contains. *)
Definition to_parse_char (c : ascii) : ascii :=
  if (code c <? 127)%N then c
  else if is_space c then " "%char else "?"%char.

Definition hex_val (c : ascii) : option Z :=
  let n := code c in
  if ((48 <=? n) && (n <=? 57))%N then Some (Z.of_N n - 48)
  else if ((97 <=? n) && (n <=? 102))%N then Some (Z.of_N n - 87)
  else if ((65 <=? n) && (n <=? 70))%N then Some (Z.of_N n - 55)
  else None.

Fixpoint skip_c_space (s : list ascii) : list ascii :=
  match s with
  | c :: r => if is_c_space c then skip_c_space r else s
  | [] => []
  end.

(** The digit run: hex digits with single underscores between them.
    [prev_us] tells whether the previous character was an underscore;
    the result is the value, the number of digits and the rest. *)
Fixpoint scan_digits (prev_us : bool) (acc : Z) (digits : nat)
  (s : list ascii) : option (Z * nat * list ascii) :=
  match s with
  | c :: r =>
      if Ascii.eqb c "_" then
        if prev_us then None else scan_digits true acc digits r
      else
        match hex_val c with
        | Some d => scan_digits false (acc * 16 + d) (S digits) r
        | None => if prev_us then None else Some (acc, digits, s)
        end
  | [] => if prev_us then None else Some (acc, digits, [])
  end.

(** [int(text, 16)]: optional blanks, an optional sign, an optional [0x]
    (after which one underscore may stand), then hex digits with single
    underscores between them, then optional blanks.  A [string] holds code
    points below 256 only, and this is [int] on such texts.  Python's [int]
    also reads the decimal digits of other scripts (U+0663 as 3, a
    full-width 12 as 18); texts with such code points are outside [string],
    so the statements about [int] range over texts of code points below 256
    and do not tell which texts beyond them [int] accepts. *)
Definition int_base16 (text : string) : result Z :=
  let s := skip_c_space (map to_parse_char (list_ascii_of_string text)) in
  let '(sign, s) :=
    match s with
    | c :: r => if Ascii.eqb c "+" then (1, r)
                else if Ascii.eqb c "-" then (-1, r) else (1, s)
    | [] => (1, s)
    end in
  let s :=
    match s with
    | c0 :: c1 :: r =>
        if Ascii.eqb c0 "0" && (Ascii.eqb c1 "x" || Ascii.eqb c1 "X") then
          match r with
          | c2 :: r' => if Ascii.eqb c2 "_" then r' else r
          | [] => r
          end
        else s
    | _ => s
    end in
  match s with
  | c :: _ =>
      if Ascii.eqb c "_" then Raise ValueError
      else
        match scan_digits false 0 0 s with
        | Some (v, S _, rest) =>
            match skip_c_space rest with
            | [] => Ok (sign * v)
            | _ :: _ => Raise ValueError
            end
        | _ => Raise ValueError
        end
  | [] => Raise ValueError
  end.

Definition hex_digit_upper (n : N) : ascii :=
  if (n <? 10)%N then ascii_of_N (48 + n) else ascii_of_N (55 + n).

(** [f"{b:02X}"] for a byte [b] *)
Definition format_02X (b : byte) : string :=
  let n := Byte.to_N b in
  String (hex_digit_upper (n / 16)) (String (hex_digit_upper (n mod 16)) EmptyString).

(** [sep.join(parts)] *)
Definition join (sep : string) (parts : list string) : string :=
  String.concat sep parts.

(** *** Bounded deques *)

(** [d.append(x)] on a [deque(maxlen=maxlen)]: when full, the oldest entry
    leaves at the other end. *)
Definition deque_append {A} (maxlen : nat) (d : list A) (x : A) : list A :=
  let d' := d ++ [x] in
  if (maxlen <? length d')%nat then drop 1 d' else d'.

(** [d.extend(xs)] *)
Definition deque_extend {A} (maxlen : nat) (d : list A) (xs : list A) : list A :=
  fold_left (deque_append maxlen) xs d.

End Py.

(** *** How far a float is from a rational *)

(** The value of a finite float, as a pair [(m, e)] standing for [m * 2^e]. *)
Definition float_value (f : float) : option (Z * Z) :=
  match Prim2SF f with
  | S754_zero _ => Some (0, 0)
  | S754_finite s m e => Some (if s then Z.neg m else Z.pos m, e)
  | _ => None
  end.

(** [close_to bits f p q]: [f] is finite and [|f - p/q| <= 2^-bits * |p/q|]
    (for [q > 0]); the comparison is carried out on integers. *)
Definition close_to (bits : Z) (f : float) (p q : Z) : bool :=
  match float_value f with
  | Some (m, e) =>
      let a := m * q * 2 ^ Z.max e 0 in
      let b := p * 2 ^ Z.max (- e) 0 in
      Z.abs (a - b) * 2 ^ bits <=? Z.abs b
  | None => false
  end.

(** ** Module constants and the coefficient formulas *)

Definition FRAME_LEN : Z := 40.
Definition BAUD_RATE : Z := 1000000.

Definition FREQ_G_MAP : gmap string Z :=
  <["2KHz"%string := 0]> (<["1KHz"%string := 1]>
    (<["500Hz"%string := 2]> (<["250Hz"%string := 3]> ∅))).

Definition calculate_coeffs (g : Z) : result (Py.num * Py.num) :=
  let* p := Py.pow2 (6 * g + 51) in
  let* n := Py.mul (Py.Int 21) p in
  let* nf := Py.truediv n (Py.Float 125) in
  let* na := Py.pow2 (24 + 6 * g) in
  Ok (Py.Float nf, na).

(** ** What the program does to the outside *)

(** One decoded sample: the four-element list [processed_data]. *)
Definition sample : Set := (float * float * float * float)%type.

(** The lines printed on the console; the text is kept symbolic. *)
Inductive console_msg : Set :=
| MsgOpenFailed
| MsgSent (n : nat)
| MsgSendFailed
| MsgCoeffs (g : Z) (nf na : Py.num)
| MsgParseError
| MsgThreadError
| MsgFileWriteFailed.

Inductive box_kind : Set := BoxWarning | BoxCritical.

(** One line of the log file; the decimal rendering of a row ([.8f]) is kept
    symbolic. *)
Inductive log_line : Set :=
| Header
| Row (row_data : sample).

Inductive effect : Set :=
| Print (m : console_msg)
| Emit (data : sample) (raw : list byte)   (* data_received_signal.emit *)
| MessageBox (k : box_kind)                (* QMessageBox.warning/critical *)
| FileWrite (line : log_line)              (* a write that went through *)
| FileClose.

Definition emitted (out : list effect) : list (sample * list byte) :=
  omap (fun e => match e with Emit d r => Some (d, r) | _ => None end) out.

Definition emitted_frames (out : list effect) : list (list byte) :=
  (emitted out).*2.

(** ** The wire format, as the specification words it *)

(** The unsigned big-endian value of a byte string, position by position:
    the byte that has [k] bytes after it weighs [256^k]. *)
Fixpoint be_value (bs : list byte) : Z :=
  match bs with
  | [] => 0
  | b :: rest => Py.int_of_byte b * 256 ^ Z.of_nat (length rest) + be_value rest
  end.

(** The field of [len] bytes at offset [off] of a frame. *)
Definition raw_field (frame : list byte) (off len : nat) : Z :=
  be_value (take len (drop off frame)).

(** The frame of the end-to-end example, with its trailing byte [t]:
    field 1 is 1 and the other fields are 0. *)
Definition example_frame (t : byte) : list byte :=
  [xaa; x00; x00] ++ (repeat x00 10 ++ [x01]) ++ repeat x00 11
  ++ repeat x00 7 ++ repeat x00 7 ++ [t].

(** A frame with four non-zero fields: 3, 5, [2^24] (bytes 00 00 00 01 00 00
    00) and [3 * 2^23] (bytes 00 00 00 01 80 00 00). *)
Definition four_field_frame : list byte :=
  [xaa; x00; x00] ++ (repeat x00 10 ++ [x03]) ++ (repeat x00 10 ++ [x05])
  ++ [x00; x00; x00; x01; x00; x00; x00]
  ++ [x00; x00; x00; x01; x80; x00; x00] ++ [xff].

(** ** SerialThread *)

(** The serial line, as far as the program observes it: whether it is open,
    what has been written to it (one entry per [write]), and whether the
    device currently fails writes. *)
Record SerialPort : Set := {
  sp_is_open : bool;
  sp_written : list (list byte);
  sp_write_fails : bool
}.

Record SerialThread : Set := {
  serial_port : SerialPort;
  is_running : bool;
  port_name : string;
  buffer : list byte;
  current_coeffs : list Py.num
}.

Definition with_buffer (st : SerialThread) (b : list byte) : SerialThread :=
  {| serial_port := serial_port st; is_running := is_running st;
     port_name := port_name st; buffer := b;
     current_coeffs := current_coeffs st |}.

Definition with_coeffs (st : SerialThread) (c : list Py.num) : SerialThread :=
  {| serial_port := serial_port st; is_running := is_running st;
     port_name := port_name st; buffer := buffer st;
     current_coeffs := c |}.

Definition with_running (st : SerialThread) (r : bool) : SerialThread :=
  {| serial_port := serial_port st; is_running := r;
     port_name := port_name st; buffer := buffer st;
     current_coeffs := current_coeffs st |}.

Definition with_port (st : SerialThread) (p : SerialPort) : SerialThread :=
  {| serial_port := p; is_running := is_running st;
     port_name := port_name st; buffer := buffer st;
     current_coeffs := current_coeffs st |}.

(** [SerialThread.__init__].  [calculate_coeffs(0)] does not raise, so the
    second branch is never taken. *)
Definition SerialThread_init : SerialThread :=
  {| serial_port := {| sp_is_open := false; sp_written := [];
                       sp_write_fails := false |};
     is_running := false;
     port_name := EmptyString;
     buffer := [];
     current_coeffs :=
       match calculate_coeffs 0 with
       | Ok (nf, na) => [nf; nf; na; na]
       | Raise _ => []
       end |}.

Definition with_port_name (st : SerialThread) (n : string) : SerialThread :=
  {| serial_port := serial_port st; is_running := is_running st;
     port_name := n; buffer := buffer st;
     current_coeffs := current_coeffs st |}.

(** [open_port], given whether the operating system lets the port open;
    the boolean of the result is the method's return value. *)
Definition open_port (st : SerialThread) (name : string) (opens : bool)
  : SerialThread * bool * list effect :=
  let st := with_port_name st name in
  if opens then
    let p := {| sp_is_open := true;
                sp_written := sp_written (serial_port st);
                sp_write_fails := sp_write_fails (serial_port st) |} in
    (with_running (with_port st p) true, true, [])
  else (st, false, [Print MsgOpenFailed]).

Definition close_port (st : SerialThread) : SerialThread :=
  let st := with_running st false in
  if sp_is_open (serial_port st)
  then with_port st {| sp_is_open := false;
                       sp_written := sp_written (serial_port st);
                       sp_write_fails := sp_write_fails (serial_port st) |}
  else st.

Definition send_data (st : SerialThread) (data_bytes : list byte)
  : SerialThread * list effect :=
  let p := serial_port st in
  if sp_is_open p then
    if sp_write_fails p then (st, [Print MsgSendFailed])
    else (with_port st {| sp_is_open := sp_is_open p;
                          sp_written := sp_written p ++ [data_bytes];
                          sp_write_fails := sp_write_fails p |},
          [Print (MsgSent (length data_bytes))])
  else (st, []).

Definition update_frequency_gain (st : SerialThread) (g : Z)
  : result (SerialThread * list effect) :=
  let* c := calculate_coeffs g in
  let '(nf, na) := c in
  Ok (with_coeffs st [nf; nf; na; na], [Print (MsgCoeffs g nf na)]).

(** The body of the inner [try] of [run]: the four fields of one frame,
    each divided by its coefficient. *)
Definition decode_frame (coeffs : list Py.num) (frame : list byte)
  : result sample :=
  let val1 := Py.int_from_bytes_big (Py.slice frame (Some 3) (Some 14)) in
  let val2 := Py.int_from_bytes_big (Py.slice frame (Some 14) (Some 25)) in
  let val3 := Py.int_from_bytes_big (Py.slice frame (Some 25) (Some 32)) in
  let val4 := Py.int_from_bytes_big (Py.slice frame (Some 32) (Some 39)) in
  let* c0 := Py.index coeffs 0 in
  let* d1 := Py.truediv (Py.Int val1) c0 in
  let* c1 := Py.index coeffs 1 in
  let* d2 := Py.truediv (Py.Int val2) c1 in
  let* c2 := Py.index coeffs 2 in
  let* d3 := Py.truediv (Py.Int val3) c2 in
  let* c3 := Py.index coeffs 3 in
  let* d4 := Py.truediv (Py.Int val4) c3 in
  Ok (d1, d2, d3, d4).

(** The inner [try]/[except] of [run] on one frame: the sample is emitted
    with the frame, or the parse error is printed. *)
Definition handle_frame (coeffs : list Py.num) (frame : list byte)
  : list effect :=
  match decode_frame coeffs frame with
  | Ok processed_data => [Emit processed_data frame]
  | Raise _ => [Print MsgParseError]
  end.

(** One pass through the body of [while len(self.buffer) >= FRAME_LEN]:
    [None] when the loop condition is false, otherwise the buffer after the
    pass and what the pass emitted or printed.  (Under the loop condition the
    buffer is not empty, so [self.buffer[0]] cannot raise.) *)
Definition run_while_body (coeffs : list Py.num) (buf : list byte)
  : option (list byte * list effect) :=
  if FRAME_LEN <=? Z.of_nat (length buf) then
    match buf with
    | b0 :: rest =>
        if Byte.eqb b0 xaa then
          let frame := Py.slice buf (Some 0) (Some FRAME_LEN) in
          Some (Py.del_slice buf (Some 0) (Some FRAME_LEN),
                handle_frame coeffs frame)
        else Some (rest, [])
    | [] => None
    end
  else None.

(** *** Termination of the inner loop *)

(** Slices with literal bounds, as the program writes them. *)
Lemma slice_range {A} (l : list A) (i j : Z) :
  0 <= i <= j ->
  Py.slice l (Some i) (Some j) = take (Z.to_nat (j - i)) (drop (Z.to_nat i) l).
Proof.
  intros Hij. unfold Py.slice, Py.slice_start, Py.slice_stop, Py.slice_bound.
  destruct (Z.ltb_spec i 0) as [?|_]; [lia|].
  destruct (Z.ltb_spec j 0) as [?|_]; [lia|].
  destruct (Z.le_gt_cases (Z.of_nat (length l)) i) as [Hn|Hn].
  - rewrite !drop_ge by lia. now rewrite !take_nil.
  - rewrite (Z.min_l i) by lia.
    destruct (Z.le_gt_cases j (Z.of_nat (length l))) as [Hj|Hj].
    + rewrite Z.min_l by lia. f_equal. lia.
    + rewrite Z.min_r by lia.
      rewrite !take_ge; [reflexivity| |]; rewrite length_drop; lia.
Qed.

Lemma slice_tail {A} (l : list A) (i : Z) :
  i < 0 ->
  Py.slice l (Some i) None = drop (length l - Z.to_nat (- i)) l.
Proof.
  intros Hi. unfold Py.slice, Py.slice_start, Py.slice_stop, Py.slice_bound.
  destruct (Z.ltb_spec i 0) as [_|?]; [|lia].
  replace (Z.to_nat (0 `max` (Z.of_nat (length l) + i)))
    with (length l - Z.to_nat (- i))%nat by lia.
  apply take_ge. rewrite length_drop. lia.
Qed.

Lemma del_slice_prefix {A} (l : list A) (k : Z) :
  0 <= k -> Py.del_slice l (Some 0) (Some k) = drop (Z.to_nat k) l.
Proof.
  intros Hk.
  unfold Py.del_slice, Py.slice_start, Py.slice_stop, Py.slice_bound.
  destruct (Z.ltb_spec k 0) as [?|_]; [lia|].
  change (0 <? 0) with false. cbv iota.
  rewrite Z.min_l by lia. change (Z.to_nat 0) with 0%nat.
  rewrite take_0, Nat.max_0_l. cbn [app].
  destruct (Z.le_gt_cases k (Z.of_nat (length l))) as [Hj|Hj].
  - now rewrite Z.min_l by lia.
  - rewrite Z.min_r by lia. rewrite !drop_ge by lia. reflexivity.
Qed.

(** A pass shortens the buffer: the measure of the inner loop. *)
Lemma run_while_body_decreases coeffs buf buf' out :
  run_while_body coeffs buf = Some (buf', out) ->
  (length buf' < length buf)%nat.
Proof.
  unfold run_while_body.
  destruct (FRAME_LEN <=? Z.of_nat (length buf)) eqn:Hlen; [|discriminate].
  apply Z.leb_le in Hlen. unfold FRAME_LEN in *.
  destruct buf as [|b0 rest]; [discriminate|].
  destruct (Byte.eqb b0 xaa); intros [= <- _].
  - rewrite del_slice_prefix by lia. rewrite length_drop. lia.
  - cbn [length]. lia.
Qed.

(** The inner [while] loop of [run]: the residual buffer and everything
    emitted or printed on the way. *)
Equations? run_while (coeffs : list Py.num) (buf : list byte)
  : list byte * list effect by wf (length buf) lt :=
  run_while coeffs buf with Logic.inspect (run_while_body coeffs buf) := {
    | exist _ (Some (buf', out)) E =>
        let r := run_while coeffs buf' in (fst r, out ++ snd r)
    | exist _ None E => (buf, []) }.
Proof. eapply run_while_body_decreases; eassumption. Qed.

(** Exactly [n] passes through the body of the inner loop; [None] when the
    loop condition fails before the [n]-th pass. *)
Fixpoint passes (coeffs : list Py.num) (n : nat) (buf : list byte)
  : option (list byte * list effect) :=
  match n with
  | O => Some (buf, [])
  | S n' =>
      match run_while_body coeffs buf with
      | Some (buf', out) =>
          match passes coeffs n' buf' with
          | Some (r, out') => Some (r, out ++ out')
          | None => None
          end
      | None => None
      end
  end.

(** What one turn of the outer loop finds at the port. *)
Inductive port_event : Set :=
| Waiting (raw : list byte)   (* [in_waiting] bytes, returned by [read] *)
| PortError.                  (* [in_waiting] or [read] raises *)

(** One turn of [while self.is_running]. *)
Definition run_iteration (st : SerialThread) (ev : port_event)
  : SerialThread * list effect :=
  match ev with
  | Waiting [] => (st, [])                         (* time.sleep(0.001) *)
  | Waiting raw =>
      let r := run_while (current_coeffs st) (buffer st ++ raw) in
      (with_buffer st (fst r), snd r)
  | PortError => (with_running st false, [Print MsgThreadError])
  end.

(** [run], along the events the port presents. *)
Fixpoint run (st : SerialThread) (evs : list port_event)
  : SerialThread * list effect :=
  match evs with
  | [] => (st, [])
  | ev :: evs' =>
      if is_running st then
        let r1 := run_iteration st ev in
        let r2 := run (fst r1) evs' in
        (fst r2, snd r1 ++ snd r2)
      else (st, [])
  end.

(** ** MainWindow *)

(** An open log file, as far as the program observes it: the lines it took,
    and the answers of the device to the coming writes ([true]: the write
    raises). *)
Record file : Set := {
  f_lines : list log_line;
  f_faults : list bool
}.

Definition file_write (f : file) (line : log_line) : result file :=
  match f_faults f with
  | true :: _ => Raise OSError
  | false :: later => Ok {| f_lines := f_lines f ++ [line]; f_faults := later |}
  | [] => Ok {| f_lines := f_lines f ++ [line]; f_faults := [] |}
  end.

(** An entry of [send_structure]: a fixed int, or a [QLineEdit] with its
    current text. *)
Inductive send_item : Set :=
| Fixed (val : Z)
| Field (text : string).

Record MainWindow : Set := {
  plot_len : nat;
  data_ch1 : list Py.num;
  data_ch2 : list Py.num;
  data_ch3 : list Py.num;
  data_ch4 : list Py.num;
  temp_buffer : list (sample * list byte);
  save_file : option file;
  is_saving : bool;
  serial_thread : SerialThread;
  send_structure : list send_item;
  combo_freq : string;                 (* currentText *)
  curves : list (list float);          (* last [setData] of curve1..curve4 *)
  txt_raw_display : string
}.

Definition with_thread (w : MainWindow) (t : SerialThread) : MainWindow :=
  {| plot_len := plot_len w; data_ch1 := data_ch1 w; data_ch2 := data_ch2 w;
     data_ch3 := data_ch3 w; data_ch4 := data_ch4 w;
     temp_buffer := temp_buffer w; save_file := save_file w;
     is_saving := is_saving w; serial_thread := t;
     send_structure := send_structure w; combo_freq := combo_freq w;
     curves := curves w; txt_raw_display := txt_raw_display w |}.

Definition with_temp_buffer (w : MainWindow) (b : list (sample * list byte))
  : MainWindow :=
  {| plot_len := plot_len w; data_ch1 := data_ch1 w; data_ch2 := data_ch2 w;
     data_ch3 := data_ch3 w; data_ch4 := data_ch4 w;
     temp_buffer := b; save_file := save_file w;
     is_saving := is_saving w; serial_thread := serial_thread w;
     send_structure := send_structure w; combo_freq := combo_freq w;
     curves := curves w; txt_raw_display := txt_raw_display w |}.

Definition with_saving (w : MainWindow) (s : bool) (f : option file)
  : MainWindow :=
  {| plot_len := plot_len w; data_ch1 := data_ch1 w; data_ch2 := data_ch2 w;
     data_ch3 := data_ch3 w; data_ch4 := data_ch4 w;
     temp_buffer := temp_buffer w; save_file := f;
     is_saving := s; serial_thread := serial_thread w;
     send_structure := send_structure w; combo_freq := combo_freq w;
     curves := curves w; txt_raw_display := txt_raw_display w |}.

Definition with_send_structure (w : MainWindow) (s : list send_item)
  : MainWindow :=
  {| plot_len := plot_len w; data_ch1 := data_ch1 w; data_ch2 := data_ch2 w;
     data_ch3 := data_ch3 w; data_ch4 := data_ch4 w;
     temp_buffer := temp_buffer w; save_file := save_file w;
     is_saving := is_saving w; serial_thread := serial_thread w;
     send_structure := s; combo_freq := combo_freq w;
     curves := curves w; txt_raw_display := txt_raw_display w |}.

(** The dictionary [fixed_vals] of [init_ui]. *)
Definition fixed_vals : gmap Z Z :=
  list_to_map [(1, 0x24); (3, 0x25); (5, 0x26); (7, 0x27); (9, 0x28);
               (11, 0x29); (13, 0x2A); (15, 0x2B); (17, 0x2C); (19, 0x2D);
               (21, 0x2E)].

(** The loop [for i in range(25)] of [init_ui], as far as it fills
    [send_structure]. *)
Definition init_send_structure : list send_item :=
  map (fun i => match fixed_vals !! i with
                | Some val => Fixed val
                | None => Field "00"
                end)
      (seqZ 0 25).

(** [MainWindow.__init__] *)
Definition MainWindow_init : MainWindow :=
  {| plot_len := 1000;
     data_ch1 := repeat (Py.Int 0) 1000; data_ch2 := repeat (Py.Int 0) 1000;
     data_ch3 := repeat (Py.Int 0) 1000; data_ch4 := repeat (Py.Int 0) 1000;
     temp_buffer := [];
     save_file := None;
     is_saving := false;
     serial_thread := SerialThread_init;
     send_structure := init_send_structure;
     combo_freq := "2KHz";
     curves := [];
     txt_raw_display := EmptyString |}.

Definition update_coeff_only (w : MainWindow)
  : result (MainWindow * list effect) :=
  let freq_name := combo_freq w in
  let* g := of_option KeyError (FREQ_G_MAP !! freq_name) in
  let* r := update_frequency_gain (serial_thread w) g in
  Ok (with_thread w (fst r), snd r).

(** The [for item in self.send_structure] loop of [construct_and_send]. *)
Fixpoint build_packet (items : list send_item) (packet : list byte)
  : result (list byte) :=
  match items with
  | [] => Ok packet
  | Fixed item :: items' =>
      let* packet := Py.bytearray_append packet item in
      build_packet items' packet
  | Field t :: items' =>
      let text := Py.strip t in
      let* val := match text with
                  | EmptyString => Ok 0
                  | _ => Py.int_base16 text
                  end in
      if negb ((0 <=? val) && (val <=? 255)) then Raise ValueError
      else
        let* packet := Py.bytearray_append packet val in
        build_packet items' packet
  end.

Definition construct_and_send (w : MainWindow) : MainWindow * list effect :=
  if negb (is_running (serial_thread w)) then
    (w, [MessageBox BoxWarning])
  else
    match build_packet (send_structure w) [] with
    | Ok packet =>
        let s := send_data (serial_thread w) packet in
        let w := with_thread w (fst s) in
        match update_coeff_only w with
        | Ok (w', out) => (w', snd s ++ out)
        | Raise _ =>
            (w, snd s ++ [MessageBox BoxCritical])
        end
    | Raise _ => (w, [MessageBox BoxCritical])
    end.

Definition on_data_received (w : MainWindow) (data : sample)
  (raw_bytes : list byte) : MainWindow :=
  with_temp_buffer w (temp_buffer w ++ [(data, raw_bytes)]).

(** The connection of [data_received_signal] to [on_data_received]: the
    slot runs once per emitted signal, in emission order. *)
Definition deliver (w : MainWindow) (signals : list (sample * list byte))
  : MainWindow :=
  fold_left (fun w s => on_data_received w (fst s) (snd s)) signals w.

Definition stop_save (w : MainWindow) : MainWindow * list effect :=
  match save_file w with
  | Some _ => (with_saving w false None, [FileClose])
  | None => (with_saving w false None, [])
  end.

(** The loop [for row_data in new_processed] inside the [try] of
    [update_plot]: the file after the lines that went through, the writes
    made, and whether a write raised. *)
Fixpoint write_rows (f : file) (rows : list sample)
  : file * list effect * bool :=
  match rows with
  | [] => (f, [], false)
  | row_data :: rows' =>
      match file_write f (Row row_data) with
      | Ok f' =>
          let '(f'', out, failed) := write_rows f' rows' in
          (f'', FileWrite (Row row_data) :: out, failed)
      | Raise _ => (f, [], true)
      end
  end.

(** [np.array(d)] on a deque of numbers: everything becomes a float. *)
Definition np_array (d : list Py.num) : list float :=
  map (fun x => match x with
                | Py.Int z => Py.round_scaled z 0
                | Py.Float f => f
                end) d.

Definition column (k : nat) (rows : list sample) : list Py.num :=
  map (fun r : sample =>
         let '(a, b, c, d) := r in
         Py.Float (match k with 0 => a | 1 => b | 2 => c | _ => d end)%nat)
      rows.

(** One raw frame as shown in the raw-hex box. *)
Definition hex_str (frame : list byte) : string :=
  Py.join " " (map Py.format_02X frame).

Definition update_plot (w : MainWindow) : MainWindow * list effect :=
  match temp_buffer w with
  | [] => (w, [])
  | _ :: _ =>
      let new_processed := (temp_buffer w).*1 in
      let new_raw := (temp_buffer w).*2 in
      let n := plot_len w in
      let d1 := Py.deque_extend n (data_ch1 w) (column 0 new_processed) in
      let d2 := Py.deque_extend n (data_ch2 w) (column 1 new_processed) in
      let d3 := Py.deque_extend n (data_ch3 w) (column 2 new_processed) in
      let d4 := Py.deque_extend n (data_ch4 w) (column 3 new_processed) in
      let display_chunk := Py.slice new_raw (Some (-5)) None in
      let text_lines := map hex_str display_chunk in
      let w1 :=
        {| plot_len := n; data_ch1 := d1; data_ch2 := d2; data_ch3 := d3;
           data_ch4 := d4; temp_buffer := [];
           save_file := save_file w; is_saving := is_saving w;
           serial_thread := serial_thread w;
           send_structure := send_structure w; combo_freq := combo_freq w;
           curves := [np_array d1; np_array d2; np_array d3; np_array d4];
           txt_raw_display := Py.join (String "010" EmptyString) text_lines |} in
      match is_saving w, save_file w with
      | true, Some f =>
          let '(f', out, failed) := write_rows f new_processed in
          if failed then
            let s := stop_save (with_saving w1 true (Some f')) in
            (fst s, out ++ [Print MsgFileWriteFailed] ++ snd s)
          else (with_saving w1 true (Some f'), out)
      | _, _ => (w1, [])
      end
  end.

(** The timer firing once after each of the given batches of signals has
    been delivered. *)
Fixpoint ticks (w : MainWindow) (batches : list (list (sample * list byte)))
  : MainWindow * list effect :=
  match batches with
  | [] => (w, [])
  | batch :: batches' =>
      let r := update_plot (deliver w batch) in
      let r' := ticks r.1 batches' in
      (r'.1, r.2 ++ r'.2)
  end.

(** [start_save], given what the file dialog and [open] answer: [None] when
    the dialog is cancelled, otherwise the outcome of [open]. *)
Definition start_save (w : MainWindow) (opened : option (result file))
  : MainWindow * list effect :=
  match opened with
  | None => (w, [])
  | Some (Raise _) => (w, [MessageBox BoxCritical])
  | Some (Ok f) =>
      match file_write f Header with
      | Ok f' => (with_saving w true (Some f'), [FileWrite Header])
      | Raise _ =>
          (with_saving w true (Some f), [MessageBox BoxCritical])
      end
  end.

(** ** States and texts used in the statements *)

(** The thread once its port is open. *)
Definition listening : SerialThread :=
  (open_port SerialThread_init "COM3" true).1.1.

(** The packet built when every field reads "00". *)
Definition all_zero_packet : list byte :=
  [x00; x24; x00; x25; x00; x26; x00; x27; x00; x28; x00; x29; x00; x2a;
   x00; x2b; x00; x2c; x00; x2d; x00; x2e; x00; x00; x00].

(** The byte sequence the specification lists for that packet. *)
Definition listed_sequence : list byte :=
  [x24; x00; x25; x00; x26; x00; x27; x00; x28; x00; x29; x00; x2a; x00;
   x2b; x00; x2c; x00; x2d; x00; x2e; x00; x00].

(** The window once the port is open. *)
Definition connected : MainWindow := with_thread MainWindow_init listening.

(** The same window after the user has cleared the first field. *)
Definition first_field_cleared : MainWindow :=
  with_send_structure connected (Field EmptyString :: tail init_send_structure).

(** A hex digit, in either case. *)
Definition is_hex_digit (c : ascii) : bool :=
  match Py.hex_val c with Some _ => true | None => false end.

(** A hexadecimal byte as the specification words it: one or more hex
    digits, nothing else, with a value of at most 255. *)
Definition is_hex_byte_text (t : string) : bool :=
  match list_ascii_of_string t with
  | [] => false
  | cs =>
      forallb is_hex_digit cs
      && (fold_left (fun acc c => acc * 16 + default 0 (Py.hex_val c)) cs 0
          <=? 255)
  end.

(** Whether the body of the loop of [construct_and_send] gets past a field
    with text [t]: the stripped text is empty, or [int(text, 16)] returns a
    value within 0..255. *)
Definition field_accepted (t : string) : bool :=
  match Py.strip t with
  | EmptyString => true
  | text =>
      match Py.int_base16 text with
      | Ok val => (0 <=? val) && (val <=? 255)
      | Raise _ => false
      end
  end.

(** Every character, by code. *)
Definition all_ascii : list ascii := map ascii_of_nat (seq 0 256).

(** The connected window after the user has typed "zz" into the first
    field. *)
Definition first_field_not_hex : MainWindow :=
  with_send_structure connected (Field "zz" :: tail init_send_structure).

(** A window that logs to a file whose device takes the header and then
    fails, with one sample waiting in the channel. *)
Definition failing_log : MainWindow :=
  deliver
    (start_save MainWindow_init
       (Some (Ok {| f_lines := []; f_faults := [false; true] |}))).1
    [((1, 2, 3, 4)%float, example_frame x00)].

(** A window that logs to a file whose device takes the header and two rows
    and then fails, with four samples waiting in the channel. *)
Definition failing_at_third_row : MainWindow :=
  deliver
    (start_save MainWindow_init
       (Some (Ok {| f_lines := [];
                    f_faults := [false; false; false; true] |}))).1
    [((1, 2, 3, 4)%float, example_frame x01);
     ((5, 6, 7, 8)%float, example_frame x02);
     ((9, 10, 11, 12)%float, example_frame x03);
     ((13, 14, 15, 16)%float, example_frame x04)].

(** An upper-case hex digit. *)
Definition is_upper_hex (c : ascii) : bool :=
  let n := Py.code c in
  (((48 <=? n) && (n <=? 57)) || ((65 <=? n) && (n <=? 70)))%N.

(** Six frames, told apart by their trailing byte. *)
Definition six_signals : list (sample * list byte) :=
  map (fun t => ((0, 0, 0, 0)%float, example_frame t))
      [x01; x02; x03; x04; x05; x06].

(** The connected window when the device refuses writes. *)
Definition connected_write_fails : MainWindow :=
  with_thread connected
    (with_port listening {| sp_is_open := true; sp_written := [];
                            sp_write_fails := true |}).

(** [closeEvent]: the log is stopped before the window goes. *)
Definition closeEvent (w : MainWindow) : MainWindow * list effect :=
  stop_save w.

(** [toggle_serial], given the state of the connect button after the click,
    the text of the port box and whether the operating system lets the port
    open.  The last component is the exception that leaves the slot, if
    any ([update_coeff_only] is not guarded here). *)
Definition toggle_serial (w : MainWindow) (checked : bool) (port : string)
  (opens : bool) : MainWindow * list effect * option exn :=
  if checked then
    match port with
    | EmptyString => (w, [], None)
    | _ =>
        let '(t, ok, out) := open_port (serial_thread w) port opens in
        let w := with_thread w t in
        if ok then
          match update_coeff_only w with
          | Ok (w', out') => (w', out ++ out', None)
          | Raise e => (w, out, Some e)
          end
        else (w, out ++ [MessageBox BoxCritical], None)
    end
  else
    let s := stop_save w in
    (with_thread s.1 (close_port (serial_thread s.1)), s.2, None).

(** The coefficient lists that the four presets produce. *)
Definition preset_coeffs (g : Z) (coeffs : list Py.num) : Prop :=
  0 <= g <= 3 /\
  exists nf na, calculate_coeffs g = Ok (Py.Float nf, Py.Int na) /\
                coeffs = [Py.Float nf; Py.Float nf; Py.Int na; Py.Int na].

(** A well-formed frame on the wire: 40 bytes, the first one the sentinel. *)
Definition wire_frame (f : list byte) : Prop :=
  length f = 40%nat /\ hd_error f = Some xaa.

(** The byte that an entry of [send_structure] contributes to the packet:
    a fixed entry its value, a field the value of its stripped text read in
    base 16, or 0 when that text is empty. *)
Definition item_byte (item : send_item) (b : byte) : Prop :=
  match item with
  | Fixed val => val = Py.int_of_byte b
  | Field t =>
      match Py.strip t with
      | EmptyString => b = x00
      | text => Py.int_base16 text = Ok (Py.int_of_byte b)
      end
  end.

(** * Properties *)

(** Induction on the length of a list: the measure of the inner loop. *)
Lemma length_ind {A} (P : list A -> Prop) :
  (forall l, (forall l', (length l' < length l)%nat -> P l') -> P l) ->
  forall l, P l.
Proof.
  intros step l. remember (length l) as n eqn:Hn. revert l Hn.
  induction (lt_wf n) as [n _ IH]. intros l ->.
  apply step. intros l' Hl'. exact (IH _ Hl' l' eq_refl).
Qed.

(** ** The inner loop *)

Section InnerLoop.

Variable coeffs : list Py.num.

(** The loop, unrolled once. *)
Lemma run_while_once (buf : list byte) :
  run_while coeffs buf =
  match run_while_body coeffs buf with
  | Some (buf', out) =>
      (fst (run_while coeffs buf'), out ++ snd (run_while coeffs buf'))
  | None => (buf, [])
  end.
Proof.
  simp run_while.
  generalize (Logic.inspect (run_while_body coeffs buf)).
  intros [[[buf' out]|] E].
  - transitivity ((run_while coeffs buf').1, out ++ (run_while coeffs buf').2);
      [simp run_while; reflexivity | now rewrite E].
  - transitivity (buf, @nil effect); [reflexivity | now rewrite E].
Qed.

Lemma run_while_body_None (buf : list byte) :
  run_while_body coeffs buf = None <-> (length buf < 40)%nat.
Proof.
  unfold run_while_body, FRAME_LEN.
  destruct (Z.leb_spec 40 (Z.of_nat (length buf))) as [H|H].
  - split; [|lia]. destruct buf as [|b0 rest]; [cbn in H; lia|].
    destruct (Byte.eqb b0 xaa); discriminate.
  - split; [lia|reflexivity].
Qed.

(** A pass over a buffer that starts with the sentinel takes the first 40
    bytes as a frame. *)
Lemma run_while_body_frame (buf : list byte) :
  (40 <= length buf)%nat -> hd_error buf = Some xaa ->
  run_while_body coeffs buf =
  Some (drop 40 buf, handle_frame coeffs (take 40 buf)).
Proof.
  intros Hlen Hhd. unfold run_while_body, FRAME_LEN.
  destruct (Z.leb_spec 40 (Z.of_nat (length buf))) as [_|?]; [|lia].
  destruct buf as [|b0 rest]; [discriminate|].
  injection Hhd as ->. change (Byte.eqb xaa xaa) with true. cbv iota.
  rewrite del_slice_prefix, slice_range by lia.
  reflexivity.
Qed.

(** A pass over a buffer that starts with any other byte drops that byte. *)
Lemma run_while_body_skip (b0 : byte) (rest : list byte) :
  (40 <= length (b0 :: rest))%nat -> b0 <> xaa ->
  run_while_body coeffs (b0 :: rest) = Some (rest, []).
Proof.
  intros Hlen Hne. unfold run_while_body, FRAME_LEN.
  destruct (Z.leb_spec 40 (Z.of_nat (length (b0 :: rest)))) as [_|?]; [|lia].
  destruct (Byte.eqb b0 xaa) eqn:E; [|reflexivity].
  now apply byte_dec_bl in E.
Qed.

(** Every pass is one of the two. *)
Lemma run_while_body_Some (buf buf' : list byte) (out : list effect) :
  run_while_body coeffs buf = Some (buf', out) ->
  (40 <= length buf)%nat /\
  ((hd_error buf = Some xaa /\ buf' = drop 40 buf
    /\ out = handle_frame coeffs (take 40 buf))
   \/ (exists b0, b0 <> xaa /\ buf = b0 :: buf' /\ out = [])).
Proof.
  intros H.
  assert (Hlen : (40 <= length buf)%nat).
  { destruct (Nat.le_gt_cases 40 (length buf)) as [?|Hlt]; [assumption|].
    apply run_while_body_None in Hlt. congruence. }
  split; [assumption|].
  destruct buf as [|b0 rest]; [cbn in Hlen; lia|].
  destruct (byte_eq_dec b0 xaa) as [->|Hne].
  - left. rewrite run_while_body_frame in H by (assumption || reflexivity).
    injection H as <- <-. auto.
  - right. rewrite run_while_body_skip in H by assumption.
    injection H as <- <-. eauto.
Qed.

(** What follows the buffer does not change a pass that can already run. *)
Lemma run_while_body_app (b1 b2 b1' : list byte) (out : list effect) :
  run_while_body coeffs b1 = Some (b1', out) ->
  run_while_body coeffs (b1 ++ b2) = Some (b1' ++ b2, out).
Proof.
  intros H. apply run_while_body_Some in H as [Hlen [(Hhd & -> & ->)|(b0 & Hne & -> & ->)]].
  - rewrite run_while_body_frame.
    + rewrite drop_app_le, take_app_le by lia. reflexivity.
    + rewrite length_app. lia.
    + destruct b1; [discriminate|assumption].
  - apply (run_while_body_skip b0 (b1' ++ b2)); [|assumption].
    cbn [length] in *. rewrite length_app. lia.
Qed.

(** The loop over [b1 ++ b2] is the loop over [b1] followed by the loop over
    what it left, extended by [b2]. *)
Lemma run_while_app (b1 b2 : list byte) :
  run_while coeffs (b1 ++ b2) =
  ((run_while coeffs ((run_while coeffs b1).1 ++ b2)).1,
   (run_while coeffs b1).2 ++ (run_while coeffs ((run_while coeffs b1).1 ++ b2)).2).
Proof.
  induction b1 as [b1 IH] using length_ind.
  rewrite (run_while_once b1).
  destruct (run_while_body coeffs b1) as [[b1' out]|] eqn:E.
  - rewrite (run_while_once (b1 ++ b2)), (run_while_body_app _ _ _ _ E).
    cbn [fst snd].
    rewrite (IH b1') by (eapply run_while_body_decreases; eassumption).
    cbn [fst snd]. now rewrite app_assoc.
  - cbn [fst snd app]. now destruct (run_while coeffs (b1 ++ b2)).
Qed.

(** The loop, case by case: a buffer of fewer than 40 bytes is left as it
    is; a longer one that starts with the sentinel gives up its first 40
    bytes as a frame; any other one loses its first byte. *)
Lemma run_while_cases (buf : list byte) :
  run_while coeffs buf =
  if (length buf <? 40)%nat then (buf, [])
  else
    match buf with
    | [] => (buf, [])
    | b0 :: rest =>
        if Byte.eqb b0 xaa then
          ((run_while coeffs (drop 40 buf)).1,
           handle_frame coeffs (take 40 buf) ++ (run_while coeffs (drop 40 buf)).2)
        else run_while coeffs rest
    end.
Proof.
  rewrite run_while_once.
  destruct (Nat.ltb_spec (length buf) 40) as [Hlt|Hge].
  - now apply run_while_body_None in Hlt as ->.
  - destruct buf as [|b0 rest]; [cbn in Hge; lia|].
    destruct (Byte.eqb b0 xaa) eqn:E.
    + apply byte_dec_bl in E as ->.
      now rewrite run_while_body_frame.
    + rewrite run_while_body_skip; [|assumption|intros ->; discriminate E].
      cbn [fst snd app]. now destruct (run_while coeffs rest).
Qed.

(** The loop leaves fewer than 40 bytes. *)
Lemma run_while_residual (buf : list byte) :
  (length (run_while coeffs buf).1 < 40)%nat.
Proof.
  induction buf as [buf IH] using length_ind.
  rewrite run_while_once.
  destruct (run_while_body coeffs buf) as [[buf' out]|] eqn:E.
  - cbn [fst]. eapply IH, run_while_body_decreases; eassumption.
  - cbn [fst]. now apply run_while_body_None.
Qed.

(** A buffer of fewer than 40 bytes is left alone. *)
Lemma run_while_short (buf : list byte) :
  (length buf < 40)%nat -> run_while coeffs buf = (buf, []).
Proof.
  intros H. rewrite run_while_once.
  now apply run_while_body_None in H as ->.
Qed.

(** The loop is a finite number of passes, at most one per buffered byte,
    after which the loop condition is false. *)
Lemma run_while_passes (buf : list byte) :
  exists n, (n <= length buf)%nat /\
    passes coeffs n buf = Some (run_while coeffs buf) /\
    run_while_body coeffs (run_while coeffs buf).1 = None.
Proof.
  induction buf as [buf IH] using length_ind.
  rewrite run_while_once.
  destruct (run_while_body coeffs buf) as [[buf' out]|] eqn:E.
  - pose proof (run_while_body_decreases _ _ _ _ E) as Hlt.
    destruct (IH buf' Hlt) as (n & Hn & Hp & Hend).
    exists (S n). split; [lia|]. split; [|exact Hend].
    cbn [passes fst snd]. rewrite E, Hp.
    now destruct (run_while coeffs buf').
  - exists 0%nat. split; [lia|]. split; [reflexivity|exact E].
Qed.

(** What the loop leaves is the end of what it was given. *)
Lemma run_while_suffix (buf : list byte) :
  (run_while coeffs buf).1 `suffix_of` buf.
Proof.
  induction buf as [buf IH] using length_ind.
  rewrite run_while_once.
  destruct (run_while_body coeffs buf) as [[buf' out]|] eqn:E; [|reflexivity].
  cbn [fst]. etransitivity.
  - eapply IH, run_while_body_decreases; eassumption.
  - apply run_while_body_Some in E as [_ [(_ & -> & _)|(b0 & _ & -> & _)]].
    + apply suffix_drop.
    + apply suffix_cons_r. reflexivity.
Qed.

(** Whatever is emitted is a 40-byte frame that starts with the sentinel,
    together with its decoding. *)
Lemma run_while_emitted (buf : list byte) (d : sample) (raw : list byte) :
  (d, raw) ∈ emitted (run_while coeffs buf).2 ->
  length raw = 40%nat /\ hd_error raw = Some xaa /\
  decode_frame coeffs raw = Ok d.
Proof.
  induction buf as [buf IH] using length_ind.
  rewrite run_while_once.
  destruct (run_while_body coeffs buf) as [[buf' out]|] eqn:E;
    [|cbn; intros H; now apply elem_of_nil in H].
  cbn [snd]. unfold emitted. rewrite omap_app, elem_of_app.
  intros [H|H].
  - apply run_while_body_Some in E as [Hlen [(Hhd & _ & ->)|(b0 & _ & _ & ->)]];
      [|now apply elem_of_nil in H].
    unfold handle_frame in H.
    destruct (decode_frame coeffs (take 40 buf)) as [d'|e] eqn:Hdec;
      cbn in H; [|now apply elem_of_nil in H].
    apply list_elem_of_singleton in H. injection H as -> ->.
    split; [rewrite length_take; lia|]. split; [|assumption].
    destruct buf; [discriminate|exact Hhd].
  - eapply IH; [eapply run_while_body_decreases; eassumption|exact H].
Qed.

(** Without a sentinel in the buffer the loop only drops bytes. *)
Lemma run_while_no_sentinel (buf : list byte) :
  Forall (fun b => b <> xaa) buf ->
  (run_while coeffs buf).2 = [] /\
  Forall (fun b => b <> xaa) (run_while coeffs buf).1.
Proof.
  induction buf as [buf IH] using length_ind. intros Hno.
  rewrite run_while_once.
  destruct (run_while_body coeffs buf) as [[buf' out]|] eqn:E; [|now split].
  pose proof (run_while_body_decreases _ _ _ _ E) as Hlt.
  apply run_while_body_Some in E as [Hlen [(Hhd & _ & _)|(b0 & _ & -> & ->)]].
  - destruct buf as [|b0 rest]; [discriminate|].
    injection Hhd as ->. now apply Forall_cons_1 in Hno as [? _].
  - apply Forall_cons_1 in Hno as [_ Hno]. cbn [fst snd app].
    now apply IH.
Qed.

End InnerLoop.

(** ** The acquisition loop *)

Lemma run_iteration_coeffs (st : SerialThread) (ev : port_event) :
  current_coeffs (run_iteration st ev).1 = current_coeffs st.
Proof. destruct ev as [[|b raw]|]; reflexivity. Qed.

Lemma run_iteration_waiting_running (st : SerialThread) (raw : list byte) :
  is_running (run_iteration st (Waiting raw)).1 = is_running st.
Proof. destruct raw; reflexivity. Qed.

Lemma run_coeffs (st : SerialThread) (evs : list port_event) :
  current_coeffs (run st evs).1 = current_coeffs st.
Proof.
  revert st. induction evs as [|ev evs IH]; intros st; [reflexivity|].
  cbn [run]. destruct (is_running st); [|reflexivity].
  cbn [fst]. now rewrite IH, run_iteration_coeffs.
Qed.

(** Two reads in a row act as one read of both chunks. *)
Lemma run_iteration_app (st : SerialThread) (c1 c2 : list byte) :
  run_iteration st (Waiting (c1 ++ c2)) =
  ((run_iteration (run_iteration st (Waiting c1)).1 (Waiting c2)).1,
   (run_iteration st (Waiting c1)).2
   ++ (run_iteration (run_iteration st (Waiting c1)).1 (Waiting c2)).2).
Proof.
  destruct c1 as [|a c1].
  - cbn [app run_iteration fst snd]. now destruct c2.
  - destruct c2 as [|b c2].
    + rewrite app_nil_r. cbn [run_iteration fst snd]. now rewrite app_nil_r.
    + cbn [run_iteration fst snd app with_buffer buffer current_coeffs].
      change (a :: c1 ++ b :: c2) with ((a :: c1) ++ b :: c2).
      rewrite app_assoc, run_while_app. reflexivity.
Qed.

(** C1. Chunk-boundary independence: feeding the chunks of a stream one read
    at a time leaves the thread in the same state, and emits the same
    signals and hence the same frames in the same order, as feeding the
    whole stream in a single read.  A read appends to the buffer and runs
    the loop, and the loop is the one described: below 40 bytes it stops; a
    buffer that starts with 0xAA gives up its first 40 bytes as a frame; any
    other buffer loses one byte. *)
Theorem chunk_boundary_independence
  (st : SerialThread) (chunks : list (list byte)) :
  run st (map Waiting chunks) = run st [Waiting (concat chunks)] /\
  emitted_frames (run st (map Waiting chunks)).2
  = emitted_frames (run st [Waiting (concat chunks)]).2 /\
  (forall b raw,
     run_iteration st (Waiting (b :: raw))
     = (with_buffer st (run_while (current_coeffs st) (buffer st ++ b :: raw)).1,
        (run_while (current_coeffs st) (buffer st ++ b :: raw)).2)) /\
  (forall buf,
     run_while (current_coeffs st) buf =
     if (length buf <? 40)%nat then (buf, [])
     else
       match buf with
       | [] => (buf, [])
       | b0 :: rest =>
           if Byte.eqb b0 xaa then
             ((run_while (current_coeffs st) (drop 40 buf)).1,
              handle_frame (current_coeffs st) (take 40 buf)
              ++ (run_while (current_coeffs st) (drop 40 buf)).2)
           else run_while (current_coeffs st) rest
       end).
Proof.
  enough (H : run st (map Waiting chunks) = run st [Waiting (concat chunks)])
    by (split; [exact H|]; split; [now rewrite H|];
        split; [reflexivity | apply run_while_cases]).
  revert st. induction chunks as [|c chunks IH]; intros st.
  - cbn. now destruct (is_running st).
  - cbn [map concat run]. destruct (is_running st) eqn:Hrun; [|reflexivity].
    rewrite IH. cbn [run].
    rewrite run_iteration_waiting_running, Hrun. cbn [fst snd].
    rewrite run_iteration_app. cbn [fst snd]. now rewrite !app_nil_r.
Qed.

(** C3. A stream without any sentinel byte yields nothing at all, and every
    signal ever emitted carries a frame of exactly 40 bytes whose first byte
    is 0xAA, together with the decoding of that very frame. *)
Theorem only_sentinel_frames_are_emitted
  (st : SerialThread) (chunks : list (list byte)) (evs : list port_event) :
  (Forall (fun b => b <> xaa) (buffer st) ->
   Forall (Forall (fun b => b <> xaa)) chunks ->
   (run st (map Waiting chunks)).2 = []) /\
  (forall d raw, (d, raw) ∈ emitted (run st evs).2 ->
     length raw = 40%nat /\ hd_error raw = Some xaa /\
     decode_frame (current_coeffs st) raw = Ok d).
Proof.
  split.
  - intros Hbuf Hchunks. revert st Hbuf.
    induction Hchunks as [|c chunks Hc _ IH]; intros st Hbuf; [reflexivity|].
    cbn [map run]. destruct (is_running st); [|reflexivity].
    cbn [snd]. destruct c as [|b c].
    + cbn [run_iteration fst snd app]. now apply IH.
    + cbn [run_iteration fst snd].
      destruct (run_while_no_sentinel (current_coeffs st) (buffer st ++ b :: c))
        as [-> Hres]; [now apply Forall_app|].
      now apply IH.
  - revert st. induction evs as [|ev evs IH]; intros st d raw;
      [cbn; intros H; now apply elem_of_nil in H|].
    cbn [run]. destruct (is_running st);
      [|cbn; intros H; now apply elem_of_nil in H].
    cbn [snd]. unfold emitted. rewrite omap_app, elem_of_app. intros [H|H].
    + destruct ev as [[|b c]|]; try (cbn in H; now apply elem_of_nil in H).
      eapply run_while_emitted. exact H.
    + apply IH in H. now rewrite run_iteration_coeffs in H.
Qed.

(** On 105 bytes without the sentinel, read in two chunks, the loop runs 66
    passes and emits nothing; and the frame emitted after three stray bytes,
    itself split over two reads, is the 40 bytes from the sentinel on. *)
Lemma only_sentinel_frames_are_emitted_witness :
  (run listening
     (map Waiting [repeat xab 50 ++ [x00; xa9]; repeat x55 53])).2 = [] /\
  (run listening
     [Waiting ([x01; x02; x03] ++ take 10 (example_frame x07));
      Waiting (drop 10 (example_frame x07))]).2
  = [Emit (PrimFloat.div 1 378302368699121.6875, 0, 0, 0)%float
          (example_frame x07)] /\
  length (example_frame x07) = 40%nat /\
  hd_error (example_frame x07) = Some xaa /\
  decode_frame (current_coeffs listening) (example_frame x07)
  = Ok (PrimFloat.div 1 378302368699121.6875, 0, 0, 0)%float.
Proof.
  destruct (only_sentinel_frames_are_emitted listening
              [repeat xab 50 ++ [x00; xa9]; repeat x55 53]
              [Waiting ([x01; x02; x03] ++ take 10 (example_frame x07));
               Waiting (drop 10 (example_frame x07))])
    as [Hnone Hframe].
  split; [apply Hnone|].
  - constructor.
  - repeat constructor; discriminate.
  - split; [vm_compute; reflexivity|].
    apply (Hframe (PrimFloat.div 1 378302368699121.6875, 0, 0, 0)%float).
    vm_compute. constructor.
Defined.

(** C10. Every pass of the inner loop removes either the 40 bytes of a frame
    or one byte that is not the sentinel; the loop therefore ends, after at
    most one pass per buffered byte; a read leaves fewer than 40 bytes in
    the buffer, these are the unconsumed end of what was buffered, every
    emitted frame has the full 40 bytes, no other method of the thread
    touches the buffer, and the next read resumes from exactly these bytes
    followed by the new ones. *)
Theorem inner_loop_ends_and_keeps_the_rest
  (st : SerialThread) (b b' : byte) (raw raw' : list byte) :
  let coeffs := current_coeffs st in
  let fed := buffer st ++ b :: raw in
  let st' := (run_iteration st (Waiting (b :: raw))).1 in
  (forall buf buf' out, run_while_body coeffs buf = Some (buf', out) ->
     (hd_error buf = Some xaa /\ buf = take 40 buf ++ buf'
      /\ length (take 40 buf) = 40%nat)
     \/ (exists b0, b0 <> xaa /\ buf = b0 :: buf' /\ out = [])) /\
  well_founded (fun buf' buf => exists out,
                  run_while_body coeffs buf = Some (buf', out)) /\
  (exists n, (n <= length fed)%nat /\
     passes coeffs n fed = Some (buffer st', (run_iteration st (Waiting (b :: raw))).2) /\
     run_while_body coeffs (buffer st') = None) /\
  (length (buffer st') < 40)%nat /\
  buffer st' `suffix_of` fed /\
  (forall raw0, raw0 ∈ emitted_frames (run_iteration st (Waiting (b :: raw))).2 ->
     length raw0 = 40%nat) /\
  (forall g data name opens,
     buffer (send_data st' data).1 = buffer st' /\
     buffer (close_port st') = buffer st' /\
     buffer (open_port st' name opens).1.1 = buffer st' /\
     forall st'' out, update_frequency_gain st' g = Ok (st'', out) ->
                      buffer st'' = buffer st') /\
  run_iteration st' (Waiting (b' :: raw')) =
    (with_buffer st' (run_while coeffs (buffer st' ++ b' :: raw')).1,
     (run_while coeffs (buffer st' ++ b' :: raw')).2).
Proof.
  intros coeffs fed st'. repeat apply conj.
  - intros buf buf' out H.
    apply run_while_body_Some in H as [Hlen [(Hhd & -> & _)|(b0 & ? & ? & ?)]].
    + left. split; [assumption|]. rewrite take_drop.
      split; [reflexivity|]. rewrite length_take. lia.
    + right. eauto.
  - apply (wf_incl _ _ (fun x y => (length x < length y)%nat)).
    + intros buf' buf [out H]. eapply run_while_body_decreases, H.
    + apply (wf_inverse_image _ _ _ (@length byte)), lt_wf.
  - destruct (run_while_passes coeffs fed) as (n & Hn & Hp & Hend).
    exists n. subst st'. cbn [run_iteration fst snd buffer with_buffer].
    split; [assumption|]. split; [|assumption].
    fold fed coeffs. rewrite Hp. now destruct (run_while coeffs fed).
  - apply run_while_residual.
  - apply run_while_suffix.
  - intros raw0 H. unfold emitted_frames in H.
    apply list_elem_of_fmap in H as [[d r] [-> H]].
    now apply run_while_emitted in H.
  - intros g data name opens. repeat apply conj.
    + unfold send_data.
      now destruct (sp_is_open (serial_port st')), (sp_write_fails (serial_port st')).
    + unfold close_port. cbn [serial_port with_running].
      now destruct (sp_is_open (serial_port st')).
    + unfold open_port. now destruct opens.
    + unfold update_frequency_gain. intros st'' out.
      destruct (calculate_coeffs g) as [[nf na]|e]; [|discriminate].
      cbn [bind]. now intros [= <- _].
  - reflexivity.
Qed.

(** ** Rounding to binary64 *)

(** [digits2_pos p] is the number of binary digits of [p]. *)
Lemma digits2_pos_bounds (p : positive) :
  2 ^ (Z.pos (digits2_pos p) - 1) <= Z.pos p < 2 ^ Z.pos (digits2_pos p).
Proof.
  induction p as [p IH|p IH|]; cbn [digits2_pos]; [| |cbn; lia].
  - rewrite Pos2Z.inj_succ.
    replace (Z.succ (Z.pos (digits2_pos p)) - 1) with (Z.succ (Z.pos (digits2_pos p) - 1)) by lia.
    rewrite !Z.pow_succ_r by lia. lia.
  - rewrite Pos2Z.inj_succ.
    replace (Z.succ (Z.pos (digits2_pos p)) - 1) with (Z.succ (Z.pos (digits2_pos p) - 1)) by lia.
    rewrite !Z.pow_succ_r by lia. lia.
Qed.

Lemma pow2_window_unique (x d1 d2 : Z) :
  2 ^ (d1 - 1) <= x < 2 ^ d1 -> 2 ^ (d2 - 1) <= x < 2 ^ d2 ->
  0 < d1 -> 0 < d2 -> d1 = d2.
Proof.
  intros H1 H2 Hd1 Hd2.
  destruct (Z.lt_trichotomy d1 d2) as [Hlt|[Heq|Hgt]]; [|exact Heq|].
  - assert (2 ^ d1 <= 2 ^ (d2 - 1)) by (apply Z.pow_le_mono_r; lia). lia.
  - assert (2 ^ d2 <= 2 ^ (d1 - 1)) by (apply Z.pow_le_mono_r; lia). lia.
Qed.

Lemma digits2_pos_window (p : positive) (d : Z) :
  2 ^ (d - 1) <= Z.pos p < 2 ^ d -> 0 < d -> Z.pos (digits2_pos p) = d.
Proof.
  intros H Hd.
  apply (pow2_window_unique (Z.pos p)); [apply digits2_pos_bounds|exact H|lia|exact Hd].
Qed.

(** The iteration that shifts a mantissa, counted in unary. *)
Lemma iter_pos_nat {A} (f : A -> A) (p : positive) (x : A) :
  SpecFloat.iter_pos f p x = Nat.iter (Pos.to_nat p) f x.
Proof.
  revert x. induction p as [p IH|p IH|]; intros x; cbn [SpecFloat.iter_pos].
  - rewrite !IH, Pos2Nat.inj_xI.
    replace (S (2 * Pos.to_nat p)) with (Pos.to_nat p + (Pos.to_nat p + 1))%nat by lia.
    rewrite !Nat.iter_add. reflexivity.
  - rewrite !IH, Pos2Nat.inj_xO.
    replace (2 * Pos.to_nat p)%nat with (Pos.to_nat p + Pos.to_nat p)%nat by lia.
    rewrite Nat.iter_add. reflexivity.
  - reflexivity.
Qed.

(** One shift to the right: the bit that leaves becomes the round bit, and
    the sticky bit remembers every bit that left before it. *)
Lemma shr_1_nonneg (m : Z) (r s : bool) :
  0 <= m ->
  shr_1 {| shr_m := m; shr_r := r; shr_s := s |}
  = {| shr_m := m / 2; shr_r := Z.odd m; shr_s := r || s |}.
Proof.
  intros Hm. destruct m as [|p|p]; [reflexivity| |lia].
  destruct p as [p|p|]; cbn [shr_1].
  - f_equal. rewrite Pos2Z.inj_xI. symmetry.
    rewrite Z.mul_comm, Z.add_comm. rewrite Z.div_add by lia. reflexivity.
  - f_equal. rewrite Pos2Z.inj_xO. symmetry.
    rewrite Z.mul_comm. rewrite Z.div_mul by lia. reflexivity.
  - reflexivity.
Qed.

(** After [k + 1] shifts the mantissa [m0] is split into what remains, the
    round bit (worth [2^k]) and the rest [t], of which the sticky bit tells
    whether it is zero. *)
Lemma shr_iter (m0 : Z) (k : nat) :
  0 <= m0 ->
  exists m r s t,
    Nat.iter (S k) shr_1 {| shr_m := m0; shr_r := false; shr_s := false |}
    = {| shr_m := m; shr_r := r; shr_s := s |} /\
    0 <= m /\ 0 <= t < 2 ^ Z.of_nat k /\ (s = true <-> 0 < t) /\
    m0 = m * 2 ^ Z.of_nat (S k) + (if r then 2 ^ Z.of_nat k else 0) + t.
Proof.
  intros Hm0. induction k as [|k IH].
  - cbn [Nat.iter]. rewrite shr_1_nonneg by assumption.
    exists (m0 / 2), (Z.odd m0), false, 0.
    split; [reflexivity|]. split; [apply Z.div_pos; lia|].
    split; [cbn; lia|]. split; [split; [discriminate|lia]|].
    change (2 ^ Z.of_nat 1) with 2. change (2 ^ Z.of_nat 0) with 1.
    pose proof (Z.div_mod m0 2 ltac:(lia)) as Hd.
    rewrite Zmod_odd in Hd. destruct (Z.odd m0); lia.
  - destruct IH as (m & r & s & t & E & Hm & Ht & Hs & Hval).
    rewrite Nat.iter_succ, E, shr_1_nonneg by assumption.
    exists (m / 2), (Z.odd m), (r || s), ((if r then 2 ^ Z.of_nat k else 0) + t).
    split; [reflexivity|]. split; [apply Z.div_pos; lia|].
    assert (Hp : 2 ^ Z.of_nat (S k) = 2 * 2 ^ Z.of_nat k)
      by (rewrite Nat2Z.inj_succ, Z.pow_succ_r by lia; reflexivity).
    assert (Hp' : 2 ^ Z.of_nat (S (S k)) = 2 * 2 ^ Z.of_nat (S k))
      by (rewrite (Nat2Z.inj_succ (S k)), Z.pow_succ_r by lia; reflexivity).
    assert (0 < 2 ^ Z.of_nat k) by (apply Z.pow_pos_nonneg; lia).
    split; [destruct r; lia|].
    split.
    { destruct r, s; cbn [orb]; split; intros Hx; try reflexivity; try lia;
        try discriminate. }
    pose proof (Z.div_mod m 2 ltac:(lia)) as Hd.
    rewrite Zmod_odd in Hd. rewrite Hp', Hval.
    destruct (Z.odd m), r; nia.
Qed.

(** Rounding a mantissa of more than 53 digits: the result is a valid
    binary64 number, and it lies within half a unit in the last place of
    [m * 2^e]. *)
Lemma binary_normalize_round (m e d : Z) :
  2 ^ (d - 1) <= m < 2 ^ d -> 53 < d ->
  -1074 <= d + e - 53 -> d + e <= 1023 ->
  exists (m' : positive) (e' : Z),
    binary_normalize prec emax m e false = S754_finite false m' e' /\
    valid_binary (S754_finite false m' e') = true /\
    d + e - 53 <= e' <= d + e - 52 /\
    2 * Z.abs (Z.pos m' * 2 ^ (e' - e) - m) <= 2 ^ (d - 53).
Proof.
  intros Hm Hd Hlo Hhi.
  assert (Hmpos : 0 < m).
  { assert (0 < 2 ^ (d - 1)) by (apply Z.pow_pos_nonneg; lia). lia. }
  destruct m as [|p|p]; [lia| |lia].
  pose proof (digits2_pos_window p d Hm ltac:(lia)) as Hdig.
  cbn [binary_normalize]. unfold binary_round, shl_align.
  rewrite Hdig.
  assert (Hfexp : fexp prec emax (d + e) = d + e - 53).
  { unfold fexp, SpecFloat.emin, prec, emax. lia. }
  rewrite Hfexp.
  set (n := d - 53).
  assert (Hn : d + e - 53 - e = Z.pos (Z.to_pos n)) by (rewrite Z2Pos.id; lia).
  rewrite Hn.
  unfold binary_round_aux.
  unfold shr_fexp at 1. cbn [Zdigits2]. rewrite Hdig, Hfexp, Hn.
  cbn [shr_record_of_loc shr]. rewrite iter_pos_nat.
  assert (Hk : Pos.to_nat (Z.to_pos n) = S (Z.to_nat (n - 1))) by lia.
  rewrite Hk.
  destruct (shr_iter (Z.pos p) (Z.to_nat (n - 1)) ltac:(lia))
    as (mq & r & s & t & E & Hmq & Ht & Hs & Hval).
  rewrite E. cbn [shr_m].
  rewrite Z2Pos.id by lia.
  replace (Z.of_nat (S (Z.to_nat (n - 1)))) with n in Hval by lia.
  replace (Z.of_nat (Z.to_nat (n - 1))) with (n - 1) in Hval, Ht by lia.
  assert (Hpn : 2 ^ n = 2 * 2 ^ (n - 1)).
  { replace n with (Z.succ (n - 1)) at 1 by lia. rewrite Z.pow_succ_r by lia. reflexivity. }
  assert (Hpd : 2 ^ (d - 1) = 2 ^ 52 * 2 ^ n).
  { rewrite <- Z.pow_add_r by lia. f_equal. lia. }
  assert (Hpd' : 2 ^ d = 2 ^ 53 * 2 ^ n).
  { rewrite <- Z.pow_add_r by lia. f_equal. lia. }
  assert (Hn1 : 0 < 2 ^ (n - 1)) by (apply Z.pow_pos_nonneg; lia).
  set (r1 := round_nearest_even mq
               (loc_of_shr_record {| shr_m := mq; shr_r := r; shr_s := s |})).
  assert (Hr1 : 2 ^ 52 <= r1 <= 2 ^ 53 /\ 2 * Z.abs (r1 * 2 ^ n - Z.pos p) <= 2 ^ n).
  { assert (Hmq' : 2 ^ 52 <= mq < 2 ^ 53) by (destruct r; nia).
    subst r1. destruct r, s; cbn [loc_of_shr_record round_nearest_even];
      try destruct (Z.even mq); split; try lia; try nia.
    all: try (destruct Hs as [Hs _]; specialize (Hs eq_refl); nia).
    all: try (assert (t = 0) by (destruct (Z.eq_dec t 0) as [?|?];
                [assumption|destruct Hs as [_ Hs]; discriminate Hs; lia]); nia). }
  destruct Hr1 as [Hr1 Herr]. clearbody r1.
  destruct r1 as [|q|q]; [lia| |lia].
  unfold shr_fexp. cbn [Zdigits2 shr_record_of_loc].
  destruct (Z.eq_dec (Z.pos q) (2 ^ 53)) as [Hq|Hq].
  - assert (Hq54 : Z.pos (digits2_pos q) = 54).
    { apply digits2_pos_window; [|lia]. rewrite Hq. split; [reflexivity|].
      apply Z.pow_lt_mono_r; lia. }
    rewrite Hq54.
    assert (Hf : fexp prec emax (54 + (e + n)) - (e + n) = 1).
    { unfold fexp, SpecFloat.emin, prec, emax. lia. }
    rewrite Hf. cbn [shr SpecFloat.iter_pos].
    rewrite shr_1_nonneg by lia. cbn [shr_m]. rewrite Hq.
    change (2 ^ 53 / 2) with (Z.pos 4503599627370496).
    exists 4503599627370496%positive, (e + n + 1).
    assert (He : (e + n + 1 <=? emax - prec) = true)
      by (apply Z.leb_le; unfold emax, prec; lia).
    rewrite He. split; [reflexivity|].
    split.
    { cbn [SpecFloat.valid_binary]. unfold bounded, canonical_mantissa.
      rewrite He, andb_true_r. apply Z.eqb_eq.
      change (Z.pos (digits2_pos 4503599627370496)) with 53.
      unfold fexp, SpecFloat.emin, prec, emax. lia. }
    split; [lia|].
    replace (e + n + 1 - e) with (Z.succ n) by lia.
    rewrite Z.pow_succ_r by lia.
    change (2 ^ 53) with 9007199254740992 in Herr. lia.
  - assert (Hq53 : Z.pos (digits2_pos q) = 53).
    { apply digits2_pos_window; [|lia]. change (53 - 1) with 52. lia. }
    rewrite Hq53.
    assert (Hf : fexp prec emax (53 + (e + n)) - (e + n) = 0).
    { unfold fexp, SpecFloat.emin, prec, emax. lia. }
    rewrite Hf. cbn [shr shr_m].
    exists q, (e + n).
    assert (He : (e + n <=? emax - prec) = true)
      by (apply Z.leb_le; unfold emax, prec; lia).
    rewrite He. split; [reflexivity|].
    split.
    { cbn [SpecFloat.valid_binary]. unfold bounded, canonical_mantissa.
      rewrite He, andb_true_r. apply Z.eqb_eq. rewrite Hq53.
      unfold fexp, SpecFloat.emin, prec, emax. lia. }
    split; [lia|].
    replace (e + n - e) with n by lia. exact Herr.
Qed.

Lemma pos_iter_xO (p n : positive) :
  Z.pos (Pos.iter xO p n) = Z.pos p * 2 ^ Z.pos n.
Proof.
  rewrite Pos2Nat.inj_iter, <- (positive_nat_Z n).
  induction (Pos.to_nat n) as [|k IH]; [cbn; lia|].
  cbn [nat_rect]. rewrite Pos2Z.inj_xO, IH, Nat2Z.inj_succ, Z.pow_succ_r by lia.
  ring.
Qed.

(** A mantissa of at most 53 digits is represented exactly. *)
Lemma binary_normalize_exact (m e d : Z) :
  2 ^ (d - 1) <= m < 2 ^ d -> 0 < d <= 53 ->
  -1074 <= d + e - 53 -> d + e <= 1024 ->
  exists m' : positive,
    binary_normalize prec emax m e false = S754_finite false m' (d + e - 53) /\
    valid_binary (S754_finite false m' (d + e - 53)) = true /\
    Z.pos m' = m * 2 ^ (53 - d).
Proof.
  intros Hm Hd Hlo Hhi.
  assert (Hmpos : 0 < m).
  { assert (0 < 2 ^ (d - 1)) by (apply Z.pow_pos_nonneg; lia). lia. }
  destruct m as [|p|p]; [lia| |lia].
  pose proof (digits2_pos_window p d Hm ltac:(lia)) as Hdig.
  cbn [binary_normalize]. unfold binary_round, shl_align.
  rewrite Hdig.
  assert (Hfexp : fexp prec emax (d + e) = d + e - 53).
  { unfold fexp, SpecFloat.emin, prec, emax. lia. }
  rewrite Hfexp.
  assert (Hgen : forall q : positive,
             Z.pos q = Z.pos p * 2 ^ (53 - d) ->
             exists m' : positive,
               binary_round_aux prec emax false (Z.pos q) (d + e - 53) loc_Exact
               = S754_finite false m' (d + e - 53) /\
               valid_binary (S754_finite false m' (d + e - 53)) = true /\
               Z.pos m' = Z.pos p * 2 ^ (53 - d)).
  { intros q Hq.
    assert (Hq53 : Z.pos (digits2_pos q) = 53).
    { apply digits2_pos_window; [|lia]. rewrite Hq.
      replace (2 ^ (53 - 1)) with (2 ^ (d - 1) * 2 ^ (53 - d))
        by (rewrite <- Z.pow_add_r by lia; f_equal; lia).
      replace (2 ^ 53) with (2 ^ d * 2 ^ (53 - d))
        by (rewrite <- Z.pow_add_r by lia; f_equal; lia).
      assert (0 < 2 ^ (53 - d)) by (apply Z.pow_pos_nonneg; lia). nia. }
    assert (Hf : fexp prec emax (53 + (d + e - 53)) - (d + e - 53) = 0).
    { unfold fexp, SpecFloat.emin, prec, emax. lia. }
    unfold binary_round_aux, shr_fexp. cbn [Zdigits2 shr_record_of_loc].
    rewrite Hq53, Hf. cbn [shr shr_m loc_of_shr_record round_nearest_even Zdigits2].
    rewrite Hq53, Hf. cbn [shr shr_m].
    assert (He : (d + e - 53 <=? emax - prec) = true)
      by (apply Z.leb_le; unfold emax, prec; lia).
    rewrite He. exists q. split; [reflexivity|]. split; [|exact Hq].
    cbn [SpecFloat.valid_binary]. unfold bounded, canonical_mantissa.
    rewrite He, andb_true_r. apply Z.eqb_eq. rewrite Hq53.
    unfold fexp, SpecFloat.emin, prec, emax. lia. }
  destruct (Z.eq_dec d 53) as [->|Hd53].
  - replace (53 + e - 53 - e) with 0 by lia. cbv iota.
    replace (53 + e - 53) with e in Hgen by lia.
    destruct (Hgen p) as (m' & E & Hv & Hm'); [change (2 ^ (53 - 53)) with 1; lia|].
    exists m'. replace (53 + e - 53) with e by lia. auto.
  - assert (Hn : d + e - 53 - e = Z.neg (Z.to_pos (53 - d))).
    { rewrite <- Pos2Z.opp_pos, Z2Pos.id; lia. }
    rewrite Hn. apply Hgen.
    rewrite pos_iter_xO, Z2Pos.id by lia. reflexivity.
Qed.

(** A valid finite number survives the passage through [float]. *)
Lemma float_value_finite (m : positive) (e : Z) :
  valid_binary (S754_finite false m e) = true ->
  float_value (SF2Prim (S754_finite false m e)) = Some (Z.pos m, e).
Proof.
  intros Hv. unfold float_value. now rewrite Prim2SF_SF2Prim.
Qed.

(** [float(f)] is within a relative [2^-53] of the int [f]. *)
Lemma round_scaled_close (f : Z) :
  0 <= f < 2 ^ 1023 -> close_to 53 (Py.round_scaled f 0) f 1 = true.
Proof.
  intros Hf. unfold Py.round_scaled.
  destruct (Z.eq_dec f 0) as [->|Hf0]; [vm_compute; reflexivity|].
  set (df := Z.log2 f + 1).
  assert (Hdf : 2 ^ (df - 1) <= f < 2 ^ df).
  { subst df. replace (Z.log2 f + 1 - 1) with (Z.log2 f) by lia.
    rewrite Z.add_1_r. apply Z.log2_spec. lia. }
  assert (Hdf0 : 0 < df) by (pose proof (Z.log2_nonneg f); lia).
  assert (Hdfhi : df <= 1023).
  { destruct (Z.le_gt_cases df 1023) as [?|Hgt]; [assumption|].
    assert (2 ^ 1023 <= 2 ^ (df - 1)) by (apply Z.pow_le_mono_r; lia). lia. }
  unfold close_to.
  destruct (Z.le_gt_cases df 53) as [Hsmall|Hbig].
  - destruct (binary_normalize_exact f 0 df Hdf ltac:(lia) ltac:(lia) ltac:(lia))
      as (m' & -> & Hv & Hm').
    rewrite float_value_finite by exact Hv.
    rewrite Z.max_r, Z.max_l by lia. apply Z.leb_le.
    replace (- (df + 0 - 53)) with (53 - df) by lia.
    rewrite Hm'. change (2 ^ 0) with 1.
    replace (f * 2 ^ (53 - df) * 1 * 1 - f * 2 ^ (53 - df)) with 0 by ring.
    cbn [Z.abs Z.mul]. apply Z.abs_nonneg.
  - destruct (binary_normalize_round f 0 df Hdf ltac:(lia) ltac:(lia) ltac:(lia))
      as (m' & e' & -> & Hv & He' & Herr).
    rewrite float_value_finite by exact Hv.
    rewrite Z.max_l, Z.max_r by lia. apply Z.leb_le.
    change (2 ^ 0) with 1. rewrite !Z.mul_1_r.
    rewrite Z.sub_0_r in Herr.
    replace (df - 53) with (df - 1 - 52) in Herr by lia.
    assert (H52 : 2 ^ (df - 1) = 2 ^ (df - 1 - 52) * 2 ^ 52).
    { rewrite <- Z.pow_add_r by lia. f_equal. lia. }
    rewrite (Z.abs_eq f) by lia.
    change (2 ^ 53) with 9007199254740992.
    change (2 ^ 52) with 4503599627370496 in H52. lia.
Qed.

(** [f / 2^k] on two ints, for a field of at most seven bytes: the quotient
    is within a relative [2^-53] of the rational [f / 2^k]. *)
Lemma int_truediv_pow2 (f k : Z) :
  0 <= f < 2 ^ 56 -> 5 <= k <= 1000 ->
  exists d, Py.int_truediv f (2 ^ k) = Ok d /\ close_to 53 d f (2 ^ k) = true.
Proof.
  intros Hf Hk.
  assert (HK : 0 < 2 ^ k) by (apply Z.pow_pos_nonneg; lia).
  unfold Py.int_truediv.
  destruct (Z.eqb_spec (2 ^ k) 0) as [?|_]; [lia|].
  rewrite (Z.abs_eq (2 ^ k)), (Z.abs_eq f) by lia.
  assert (Hth : 2 ^ 56 <= Py.overflow_threshold) by (vm_compute; discriminate).
  destruct (Z.leb_spec (Py.overflow_threshold * 2 ^ k) f) as [?|_]; [nia|].
  rewrite Z.log2_pow2 by lia.
  rewrite (Z.pow_add_r 2 k 64), Z.mul_assoc by lia.
  rewrite (Z.mul_comm (f * 2 ^ k)), Z.mul_assoc.
  rewrite Z.div_mul, Z.mod_mul by lia.
  cbn [Z.eqb]. rewrite Z.add_0_r.
  destruct (Z.ltb_spec (2 ^ k) 0) as [?|_]; [lia|].
  rewrite (Z.sgn_pos (2 ^ k)) by lia.
  destruct (Z.eq_dec f 0) as [->|Hf0].
  { eexists. split; [reflexivity|]. vm_compute. reflexivity. }
  rewrite Z.sgn_pos by lia.
  destruct (Z.ltb_spec f 0) as [?|_]; [lia|]. cbn [xorb].
  eexists. split; [reflexivity|].
  replace (1 * 1 * (2 * (2 ^ 64 * f))) with (f * 2 ^ 65) by lia.
  set (df := Z.log2 f + 1).
  assert (Hdf : 2 ^ (df - 1) <= f < 2 ^ df).
  { subst df. replace (Z.log2 f + 1 - 1) with (Z.log2 f) by lia.
    rewrite Z.add_1_r. apply Z.log2_spec. lia. }
  assert (Hdf0 : 0 < df) by (pose proof (Z.log2_nonneg f); lia).
  assert (Hdf56 : df <= 56).
  { destruct (Z.le_gt_cases df 56) as [?|Hgt]; [assumption|].
    assert (2 ^ 56 <= 2 ^ (df - 1)) by (apply Z.pow_le_mono_r; lia). lia. }
  destruct (binary_normalize_round (f * 2 ^ 65) (- (k + 64 + 1)) (df + 65))
    as (m' & e' & -> & Hvalid & He' & Herr); [|lia|lia|lia|].
  { replace (df + 65 - 1) with (df - 1 + 65) by lia.
    rewrite !Z.pow_add_r by lia. nia. }
  unfold close_to. rewrite float_value_finite by exact Hvalid.
  rewrite Z.max_r, Z.max_l by lia. rewrite Z.mul_1_r.
  apply Z.leb_le.
  set (E := e' - - (k + 64 + 1)) in Herr.
  replace (df + 65 - 53) with (df - 1 + 13) in Herr by lia.
  rewrite Z.pow_add_r in Herr by lia.
  set (P := 2 ^ (df - 1)) in *.
  assert (HA : 0 < 2 ^ E) by (apply Z.pow_pos_nonneg; lia).
  assert (Hu : 2 ^ (- e') * 2 ^ E = 2 ^ k * 2 ^ 65).
  { rewrite <- !Z.pow_add_r by lia. f_equal. lia. }
  assert (HU : 0 < 2 ^ (- e')) by (apply Z.pow_pos_nonneg; lia).
  rewrite (Z.abs_eq (f * 2 ^ (- e'))) by nia.
  apply (Z.mul_le_mono_pos_r _ _ (2 ^ E) HA).
  assert (HY : (Z.pos m' * 2 ^ k - f * 2 ^ (- e')) * 2 ^ E
               = 2 ^ k * (Z.pos m' * 2 ^ E - f * 2 ^ 65)).
  { rewrite Z.mul_sub_distr_r, <- (Z.mul_assoc f), Hu. ring. }
  assert (Habs : Z.abs (Z.pos m' * 2 ^ k - f * 2 ^ (- e')) * 2 ^ E
                 = 2 ^ k * Z.abs (Z.pos m' * 2 ^ E - f * 2 ^ 65)).
  { rewrite <- (Z.abs_eq (2 ^ E)) at 1 by lia.
    rewrite <- (Z.abs_eq (2 ^ k)) at 2 by lia.
    rewrite <- !Z.abs_mul. now rewrite HY. }
  replace (Z.abs (Z.pos m' * 2 ^ k - f * 2 ^ (- e')) * 2 ^ 53 * 2 ^ E)
    with (Z.abs (Z.pos m' * 2 ^ k - f * 2 ^ (- e')) * 2 ^ E * 2 ^ 53) by ring.
  rewrite Habs, <- (Z.mul_assoc (2 ^ k)).
  rewrite <- Z.mul_assoc, Hu.
  replace (f * (2 ^ k * 2 ^ 65)) with (2 ^ k * (f * 2 ^ 65)) by ring.
  apply Z.mul_le_mono_nonneg_l; [lia|].
  change (2 ^ 13) with 8192 in Herr. change (2 ^ 53) with 9007199254740992.
  change (2 ^ 65) with 36893488147419103232 in *. lia.
Qed.

(** ** Decoding *)

Lemma int_of_byte_range (b : byte) : 0 <= Py.int_of_byte b < 256.
Proof.
  unfold Py.int_of_byte. pose proof (Byte.to_N_bounded b). lia.
Qed.

Lemma be_value_range (bs : list byte) :
  0 <= be_value bs < 256 ^ Z.of_nat (length bs).
Proof.
  induction bs as [|b rest IH]; [cbn; lia|].
  cbn [be_value length]. rewrite Nat2Z.inj_succ, Z.pow_succ_r by lia.
  pose proof (int_of_byte_range b). nia.
Qed.

(** [int.from_bytes(..., 'big')] computes the positional value. *)
Lemma int_from_bytes_big_be_value (bs : list byte) :
  Py.int_from_bytes_big bs = be_value bs.
Proof.
  unfold Py.int_from_bytes_big.
  enough (H : forall acc,
             fold_left (fun acc b => acc * 256 + Py.int_of_byte b) bs acc
             = acc * 256 ^ Z.of_nat (length bs) + be_value bs)
    by (rewrite H; lia).
  induction bs as [|b rest IH]; intros acc; [cbn; lia|].
  cbn [fold_left be_value length]. rewrite IH, Nat2Z.inj_succ, Z.pow_succ_r by lia.
  ring.
Qed.

Lemma raw_field_range (frame : list byte) (off len : nat) :
  0 <= raw_field frame off len < 256 ^ Z.of_nat len.
Proof.
  unfold raw_field.
  pose proof (be_value_range (take len (drop off frame))) as H.
  assert (Hl : (length (take len (drop off frame)) <= len)%nat)
    by (rewrite length_take; lia).
  assert (256 ^ Z.of_nat (length (take len (drop off frame)))
          <= 256 ^ Z.of_nat len) by (apply Z.pow_le_mono_r; lia).
  lia.
Qed.

Lemma overflow_threshold_large : 256 ^ 11 <= Py.overflow_threshold.
Proof. vm_compute. intros H. discriminate H. Qed.

(** A value of at most 11 bytes converts to a float without overflow. *)
Lemma float_of_int_small (v : Z) :
  0 <= v < 256 ^ 11 -> Py.float_of_int v = Ok (Py.round_scaled v 0).
Proof.
  intros Hv. unfold Py.float_of_int.
  pose proof overflow_threshold_large.
  destruct (Z.ltb_spec (Z.abs v) Py.overflow_threshold); [reflexivity|lia].
Qed.

Lemma truediv_int_float (v : Z) (c : float) :
  0 <= v < 256 ^ 11 -> PrimFloat.eqb c 0 = false ->
  Py.truediv (Py.Int v) (Py.Float c)
  = Ok (PrimFloat.div (Py.round_scaled v 0) c).
Proof.
  intros Hv Hc. cbn [Py.truediv]. rewrite float_of_int_small by assumption.
  cbn [bind]. unfold Py.float_truediv. now rewrite Hc.
Qed.

Lemma truediv_int_int (v n : Z) :
  0 <= v < 256 ^ 11 -> 0 < n -> is_ok (Py.truediv (Py.Int v) (Py.Int n)) = true.
Proof.
  intros Hv Hn. cbn [Py.truediv]. unfold Py.int_truediv.
  destruct (Z.eqb_spec n 0); [lia|].
  pose proof overflow_threshold_large.
  destruct (Z.leb_spec (Py.overflow_threshold * Z.abs n) (Z.abs v)); [nia|].
  reflexivity.
Qed.

(** The coefficients of the four presets. *)
Lemma coeffs_table (g : Z) :
  0 <= g <= 3 ->
  exists nf na,
    calculate_coeffs g = Ok (Py.Float nf, Py.Int na) /\
    nf = PrimFloat.div (Py.round_scaled (21 * 2 ^ (6 * g + 51)) 0) 125 /\
    na = 2 ^ (24 + 6 * g) /\
    close_to 53 nf (21 * 2 ^ (6 * g + 51)) 125 = true /\
    PrimFloat.ltb 0 nf = true /\ PrimFloat.eqb nf 0 = false /\ 0 < na.
Proof.
  intros Hg.
  assert (Hcases : g = 0 \/ g = 1 \/ g = 2 \/ g = 3) by lia.
  destruct Hcases as [-> | [-> | [-> | ->]]];
    do 2 eexists; (split; [vm_compute; reflexivity|]);
    repeat split; vm_compute; reflexivity.
Qed.

(** Decoding with a non-zero float for channels 1-2 and a positive int for
    channels 3-4 cannot raise, and divides each field by its coefficient. *)
Lemma decode_frame_fields (nf : float) (na : Z) (frame : list byte) :
  PrimFloat.eqb nf 0 = false -> 0 < na ->
  exists d3 d4,
    Py.truediv (Py.Int (raw_field frame 25 7)) (Py.Int na) = Ok d3 /\
    Py.truediv (Py.Int (raw_field frame 32 7)) (Py.Int na) = Ok d4 /\
    decode_frame [Py.Float nf; Py.Float nf; Py.Int na; Py.Int na] frame
    = Ok (PrimFloat.div (Py.round_scaled (raw_field frame 3 11) 0) nf,
          PrimFloat.div (Py.round_scaled (raw_field frame 14 11) 0) nf,
          d3, d4).
Proof.
  intros Hnf Hna.
  assert (H7 : forall off, 0 <= raw_field frame off 7 < 256 ^ 11).
  { intros off. pose proof (raw_field_range frame off 7).
    assert (256 ^ Z.of_nat 7 <= 256 ^ 11) by (apply Z.pow_le_mono_r; lia). lia. }
  destruct (Py.truediv (Py.Int (raw_field frame 25 7)) (Py.Int na)) as [d3|e] eqn:E3;
    [|pose proof (truediv_int_int _ na (H7 25%nat) Hna) as H; rewrite E3 in H; discriminate H].
  destruct (Py.truediv (Py.Int (raw_field frame 32 7)) (Py.Int na)) as [d4|e] eqn:E4;
    [|pose proof (truediv_int_int _ na (H7 32%nat) Hna) as H; rewrite E4 in H; discriminate H].
  exists d3, d4. split; [reflexivity|]. split; [reflexivity|].
  unfold decode_frame. rewrite !int_from_bytes_big_be_value, !slice_range by lia.
  change (be_value (take (Z.to_nat (14 - 3)) (drop (Z.to_nat 3) frame)))
    with (raw_field frame 3 11).
  change (be_value (take (Z.to_nat (25 - 14)) (drop (Z.to_nat 14) frame)))
    with (raw_field frame 14 11).
  change (be_value (take (Z.to_nat (32 - 25)) (drop (Z.to_nat 25) frame)))
    with (raw_field frame 25 7).
  change (be_value (take (Z.to_nat (39 - 32)) (drop (Z.to_nat 32) frame)))
    with (raw_field frame 32 7).
  cbn [Py.index nth_error of_option bind].
  rewrite !truediv_int_float by (assumption || apply (raw_field_range frame _ 11)).
  cbn [bind]. rewrite E3, E4. reflexivity.
Qed.

(** C7. For each gain index [g] of the four presets, [nf(g)] is the
    binary64 quotient of the integer [21 * 2^(6g+51)] by [125.0] -- the float
    nearest to the rational [21 * 2^(6g+51) / 125], within a relative error
    of [2^-53] -- and [na(g)] is the integer [2^(24+6g)]; the stored list is
    [nf, nf, na, na]; both divisors are positive; and both are 64 times the
    coefficients of [g - 1]. *)
Theorem coefficients_of_each_gain (st : SerialThread) (g : Z) :
  0 <= g <= 3 ->
  exists nf na nf' na' st' out,
    calculate_coeffs g = Ok (Py.Float nf, Py.Int na) /\
    nf = PrimFloat.div (Py.round_scaled (21 * 2 ^ (6 * g + 51)) 0) 125 /\
    close_to 53 nf (21 * 2 ^ (6 * g + 51)) 125 = true /\
    na = 2 ^ (24 + 6 * g) /\
    update_frequency_gain st g = Ok (st', out) /\
    current_coeffs st' = [Py.Float nf; Py.Float nf; Py.Int na; Py.Int na] /\
    PrimFloat.ltb 0 nf = true /\ 0 < na /\
    calculate_coeffs (g - 1) = Ok (Py.Float nf', Py.Int na') /\
    Py.mul (Py.Int na') (Py.Int 64) = Ok (Py.Int na) /\
    Py.mul (Py.Float nf') (Py.Int 64) = Ok (Py.Float nf).
Proof.
  intros Hg.
  assert (Hcases : g = 0 \/ g = 1 \/ g = 2 \/ g = 3) by lia.
  destruct Hcases as [-> | [-> | [-> | ->]]];
    do 6 eexists; (split; [vm_compute; reflexivity|]);
    repeat split; vm_compute; reflexivity.
Qed.

Lemma coefficients_of_each_gain_witness :
  exists nf na, calculate_coeffs 2 = Ok (Py.Float nf, Py.Int na) /\ 0 < na.
Proof.
  destruct (coefficients_of_each_gain SerialThread_init 2 ltac:(lia))
    as (nf & na & _ & _ & _ & _ & H & _ & _ & _ & _ & _ & _ & Hna & _).
  exists nf, na. split; assumption.
Defined.

(** C2. Under the coefficients of gain index [g], a 40-byte frame that
    starts with the sentinel decodes without error to the four big-endian
    fields at bytes [3,14), [14,25), [25,32) and [32,39), the first two
    divided by [nf(g)] and the last two by [na(g)], and that sample is what
    is emitted with the frame.  The divisions are Python's: channels 1-2 are
    the binary64 quotient of [float(field)] by [nf(g)], where [float(field)]
    is within a relative [2^-53] of the field; channels 3-4 are within a
    relative [2^-53] of the rational [field / 2^(24+6g)].  The example frame
    (field 1 = 1, the others 0, any trailing byte) decodes under the
    start-up coefficients to [(1/nf(0), 0, 0, 0)], whose first component is
    within [2^-52] of the rational [125 / (21 * 2^51)]; and the frame with
    the fields 3, 5, [2^24] and [3 * 2^23] decodes to
    [(3/nf(0), 5/nf(0), 1, 1.5)] under the start-up coefficients and to
    [(3/nf(1), 5/nf(1), 1/64, 1.5/64)] after [update_frequency_gain(1)]. *)
Theorem decode_divides_fields_by_coefficients
  (st st' : SerialThread) (out : list effect) (g : Z) (frame : list byte) :
  (0 <= g <= 3 -> length frame = 40%nat -> hd_error frame = Some xaa ->
   update_frequency_gain st g = Ok (st', out) ->
   exists nf na d1 d2 d3 d4,
     calculate_coeffs g = Ok (Py.Float nf, Py.Int na) /\
     current_coeffs st' = [Py.Float nf; Py.Float nf; Py.Int na; Py.Int na] /\
     decode_frame (current_coeffs st') frame = Ok (d1, d2, d3, d4) /\
     Py.truediv (Py.Int (raw_field frame 3 11)) (Py.Float nf) = Ok d1 /\
     Py.truediv (Py.Int (raw_field frame 14 11)) (Py.Float nf) = Ok d2 /\
     Py.truediv (Py.Int (raw_field frame 25 7)) (Py.Int na) = Ok d3 /\
     Py.truediv (Py.Int (raw_field frame 32 7)) (Py.Int na) = Ok d4 /\
     length (take 11 (drop 3 frame)) = 11%nat /\
     length (take 11 (drop 14 frame)) = 11%nat /\
     length (take 7 (drop 25 frame)) = 7%nat /\
     length (take 7 (drop 32 frame)) = 7%nat /\
     handle_frame (current_coeffs st') frame = [Emit (d1, d2, d3, d4) frame] /\
     nf = PrimFloat.div (Py.round_scaled (21 * 2 ^ (6 * g + 51)) 0) 125 /\
     na = 2 ^ (24 + 6 * g) /\
     d1 = PrimFloat.div (Py.round_scaled (raw_field frame 3 11) 0) nf /\
     d2 = PrimFloat.div (Py.round_scaled (raw_field frame 14 11) 0) nf /\
     close_to 53 (Py.round_scaled (raw_field frame 3 11) 0)
       (raw_field frame 3 11) 1 = true /\
     close_to 53 (Py.round_scaled (raw_field frame 14 11) 0)
       (raw_field frame 14 11) 1 = true /\
     close_to 53 d3 (raw_field frame 25 7) (2 ^ (24 + 6 * g)) = true /\
     close_to 53 d4 (raw_field frame 32 7) (2 ^ (24 + 6 * g)) = true)
  /\
  (forall t, exists nf0 d1,
     calculate_coeffs 0 = Ok (Py.Float nf0, Py.Int (2 ^ 24)) /\
     close_to 53 nf0 (21 * 2 ^ 51) 125 = true /\
     raw_field (example_frame t) 3 11 = 1 /\
     raw_field (example_frame t) 14 11 = 0 /\
     raw_field (example_frame t) 25 7 = 0 /\
     raw_field (example_frame t) 32 7 = 0 /\
     decode_frame (current_coeffs SerialThread_init) (example_frame t)
     = Ok (d1, 0, 0, 0)%float /\
     d1 = PrimFloat.div 1 nf0 /\
     close_to 52 d1 125 (21 * 2 ^ 51) = true)
  /\
  (exists nf0 nf1 st1 out1,
     calculate_coeffs 0 = Ok (Py.Float nf0, Py.Int (2 ^ 24)) /\
     calculate_coeffs 1 = Ok (Py.Float nf1, Py.Int (2 ^ 30)) /\
     raw_field four_field_frame 3 11 = 3 /\
     raw_field four_field_frame 14 11 = 5 /\
     raw_field four_field_frame 25 7 = 2 ^ 24 /\
     raw_field four_field_frame 32 7 = 3 * 2 ^ 23 /\
     decode_frame (current_coeffs SerialThread_init) four_field_frame
     = Ok (PrimFloat.div 3 nf0, PrimFloat.div 5 nf0, 1, 1.5)%float /\
     update_frequency_gain SerialThread_init 1 = Ok (st1, out1) /\
     decode_frame (current_coeffs st1) four_field_frame
     = Ok (PrimFloat.div 3 nf1, PrimFloat.div 5 nf1, 0.015625, 0.0234375)%float /\
     close_to 52 (PrimFloat.div 3 nf0) (3 * 125) (21 * 2 ^ 51) = true /\
     close_to 52 (PrimFloat.div 5 nf1) (5 * 125) (21 * 2 ^ 57) = true).
Proof.
  split; [|split].
  - intros Hg Hlen Hhd Hupd.
    destruct (coeffs_table g Hg) as (nf & na & Hc & Hnf & Hna & _ & _ & Hnz & Hpos).
    unfold update_frequency_gain in Hupd. rewrite Hc in Hupd.
    cbn [bind] in Hupd. injection Hupd as <- _.
    cbn [current_coeffs with_coeffs].
    destruct (decode_frame_fields nf na frame Hnz Hpos) as (d3 & d4 & H3 & H4 & Hd).
    assert (H7 : forall off, 0 <= raw_field frame off 7 < 2 ^ 56).
    { intros off. pose proof (raw_field_range frame off 7) as H.
      change (256 ^ Z.of_nat 7) with (2 ^ 56) in H. exact H. }
    assert (Hclose : forall off d,
              Py.truediv (Py.Int (raw_field frame off 7)) (Py.Int na) = Ok d ->
              close_to 53 d (raw_field frame off 7) (2 ^ (24 + 6 * g)) = true).
    { intros off d Hdiv. cbn [Py.truediv] in Hdiv. rewrite Hna in Hdiv.
      destruct (int_truediv_pow2 (raw_field frame off 7) (24 + 6 * g)
                  (H7 off) ltac:(lia)) as (d' & Hd' & Hc').
      rewrite Hd' in Hdiv. now injection Hdiv as <-. }
    exists nf, na. do 2 eexists. exists d3, d4.
    split; [exact Hc|]. split; [reflexivity|]. split; [exact Hd|].
    split; [apply truediv_int_float; [apply (raw_field_range frame _ 11)|exact Hnz]|].
    split; [apply truediv_int_float; [apply (raw_field_range frame _ 11)|exact Hnz]|].
    split; [exact H3|]. split; [exact H4|].
    rewrite !length_take, !length_drop, Hlen.
    repeat (split; [reflexivity|]).
    split; [unfold handle_frame; now rewrite Hd|].
    split; [exact Hnf|]. split; [exact Hna|].
    split; [reflexivity|]. split; [reflexivity|].
    assert (H11 : forall off, 0 <= raw_field frame off 11 < 2 ^ 1023).
    { intros off. pose proof (raw_field_range frame off 11) as H.
      assert (256 ^ Z.of_nat 11 <= 2 ^ 1023) by (vm_compute; discriminate).
      lia. }
    split; [apply round_scaled_close, H11|].
    split; [apply round_scaled_close, H11|].
    split; [now apply Hclose | now apply Hclose].
  - intros t. do 2 eexists.
    split; [vm_compute; reflexivity|].
    repeat split; vm_compute; reflexivity.
  - do 4 eexists.
    split; [vm_compute; reflexivity|].
    split; [vm_compute; reflexivity|].
    repeat split; vm_compute; reflexivity.
Qed.

(** The frame with four non-zero fields under the start-up coefficients:
    channel 3 is within [2^-53] of [2^24 / 2^24]. *)
Lemma decode_divides_fields_by_coefficients_witness :
  exists d1 d2 d3 d4,
    decode_frame
      (current_coeffs (with_coeffs SerialThread_init
         [Py.Float 378302368699121.6875; Py.Float 378302368699121.6875;
          Py.Int 16777216; Py.Int 16777216]))
      four_field_frame = Ok (d1, d2, d3, d4) /\
    close_to 53 d3 (raw_field four_field_frame 25 7) (2 ^ (24 + 6 * 0)) = true /\
    close_to 53 d4 (raw_field four_field_frame 32 7) (2 ^ (24 + 6 * 0)) = true.
Proof.
  destruct (proj1 (decode_divides_fields_by_coefficients
                     SerialThread_init
                     (with_coeffs SerialThread_init
                        [Py.Float 378302368699121.6875;
                         Py.Float 378302368699121.6875;
                         Py.Int 16777216; Py.Int 16777216])
                     [Print (MsgCoeffs 0 (Py.Float 378302368699121.6875)
                               (Py.Int 16777216))]
                     0 four_field_frame)
              ltac:(lia) eq_refl eq_refl eq_refl)
    as (nf & na & d1 & d2 & d3 & d4 & _ & _ & Hd & _ & _ & _ & _ & _ & _ & _
        & _ & _ & _ & _ & _ & _ & _ & _ & H3 & H4).
  exists d1, d2, d3, d4. split; [exact Hd|]. split; [exact H3|exact H4].
Defined.

(** ** The sample channel and the consumer tick *)

(** A bounded deque keeps the most recent [maxlen] entries. *)
Lemma deque_extend_keeps_last {A} (maxlen : nat) (d xs : list A) :
  (length d <= maxlen)%nat ->
  Py.deque_extend maxlen d xs
  = drop (length d + length xs - maxlen) (d ++ xs).
Proof.
  unfold Py.deque_extend. revert d.
  induction xs as [|x xs IH]; intros d Hd.
  - cbn [fold_left length]. rewrite app_nil_r.
    replace (length d + 0 - maxlen)%nat with 0%nat by lia. reflexivity.
  - cbn [fold_left length]. unfold Py.deque_append at 2.
    rewrite length_app. cbn [length].
    destruct (Nat.ltb_spec maxlen (length d + 1)) as [Hfull|Hroom].
    + rewrite IH by (rewrite length_drop, length_app; cbn [length]; lia).
      rewrite length_drop, length_app. cbn [length].
      rewrite <- drop_app_le by (rewrite length_app; cbn [length]; lia).
      rewrite drop_drop, <- app_assoc. cbn [app]. f_equal. lia.
    + rewrite IH by (rewrite length_app; cbn [length]; lia).
      rewrite length_app, <- app_assoc. cbn [length app]. f_equal. lia.
Qed.

Lemma deque_extend_length {A} (maxlen : nat) (d xs : list A) :
  length d = maxlen -> length (Py.deque_extend maxlen d xs) = maxlen.
Proof.
  intros Hd. rewrite deque_extend_keeps_last by lia.
  rewrite length_drop, length_app. lia.
Qed.

Lemma deque_extend_app {A} (maxlen : nat) (d xs ys : list A) :
  Py.deque_extend maxlen d (xs ++ ys)
  = Py.deque_extend maxlen (Py.deque_extend maxlen d xs) ys.
Proof. apply fold_left_app. Qed.

Lemma column_app (k : nat) (r1 r2 : list sample) :
  column k (r1 ++ r2) = column k r1 ++ column k r2.
Proof. apply map_app. Qed.

(** What a batch brings to each ring: the first, second, third and fourth
    component of every sample, in order, as floats. *)
Lemma column_components (rows : list sample) :
  column 0 rows = map (fun '(a, _, _, _) => Py.Float a) rows /\
  column 1 rows = map (fun '(_, b, _, _) => Py.Float b) rows /\
  column 2 rows = map (fun '(_, _, c, _) => Py.Float c) rows /\
  column 3 rows = map (fun '(_, _, _, d) => Py.Float d) rows.
Proof.
  repeat split; apply map_ext; intros [[[a b] c] d]; reflexivity.
Qed.

(** A ring after a batch: its old entries followed by the new values, less
    the oldest entries that no longer fit. *)
Lemma ring_after_batch (n k : nat) (d : list Py.num) (rows : list sample) :
  (length d <= n)%nat ->
  Py.deque_extend n d (column k rows)
  = drop (length d + length rows - n) (d ++ column k rows).
Proof.
  intros Hd. rewrite deque_extend_keeps_last by exact Hd.
  unfold column. now rewrite length_map.
Qed.

(** Delivering signals appends them to the channel and touches nothing
    else. *)
Lemma deliver_spec (w : MainWindow) (signals : list (sample * list byte)) :
  deliver w signals = with_temp_buffer w (temp_buffer w ++ signals).
Proof.
  unfold deliver. revert w. induction signals as [|[d raw] signals IH]; intros w.
  - cbn. rewrite app_nil_r. now destruct w.
  - cbn [fold_left]. rewrite IH. unfold on_data_received.
    cbn [temp_buffer with_temp_buffer fst snd].
    now rewrite <- app_assoc.
Qed.

(** A tick on an empty channel does nothing. *)
Lemma update_plot_idle (w : MainWindow) :
  temp_buffer w = [] -> update_plot w = (w, []).
Proof. intros H. unfold update_plot. now rewrite H. Qed.

(** What a tick always does when the channel holds something, whatever
    happens to the log file. *)
Lemma update_plot_drains (w : MainWindow) :
  temp_buffer w <> [] ->
  let w' := (update_plot w).1 in
  let rows := (temp_buffer w).*1 in
  temp_buffer w' = [] /\
  plot_len w' = plot_len w /\
  data_ch1 w' = Py.deque_extend (plot_len w) (data_ch1 w) (column 0 rows) /\
  data_ch2 w' = Py.deque_extend (plot_len w) (data_ch2 w) (column 1 rows) /\
  data_ch3 w' = Py.deque_extend (plot_len w) (data_ch3 w) (column 2 rows) /\
  data_ch4 w' = Py.deque_extend (plot_len w) (data_ch4 w) (column 3 rows) /\
  curves w' = [np_array (data_ch1 w'); np_array (data_ch2 w');
               np_array (data_ch3 w'); np_array (data_ch4 w')] /\
  txt_raw_display w'
  = Py.join (String "010" EmptyString)
      (map hex_str (Py.slice (temp_buffer w).*2 (Some (-5)) None)).
Proof.
  intros Hne. unfold update_plot.
  destruct (temp_buffer w) as [|e es] eqn:Hb; [congruence|].
  destruct (is_saving w), (save_file w) as [f|]; cbn zeta;
    try (cbn; repeat split; reflexivity).
  destruct (write_rows f ((e :: es).*1)) as [[f' out] failed].
  destruct failed; unfold stop_save; cbn; repeat split; reflexivity.
Qed.

Lemma update_plot_temp_buffer (w : MainWindow) :
  temp_buffer (update_plot w).1 = [].
Proof.
  destruct (temp_buffer w) as [|e es] eqn:Hb.
  - now rewrite update_plot_idle.
  - apply update_plot_drains. congruence.
Qed.

Lemma update_plot_plot_len (w : MainWindow) :
  plot_len (update_plot w).1 = plot_len w.
Proof.
  destruct (temp_buffer w) as [|e es] eqn:Hb.
  - now rewrite update_plot_idle.
  - apply update_plot_drains. congruence.
Qed.

(** While logging is off a tick writes nothing and leaves it off. *)
Lemma update_plot_not_saving (w : MainWindow) :
  is_saving w = false ->
  (update_plot w).2 = [] /\
  is_saving (update_plot w).1 = false /\
  save_file (update_plot w).1 = save_file w.
Proof.
  intros Hs. unfold update_plot.
  destruct (temp_buffer w); [cbn; auto|].
  rewrite Hs. cbn. auto.
Qed.

Lemma with_temp_buffer_id (w : MainWindow) :
  with_temp_buffer w (temp_buffer w) = w.
Proof. now destruct w. Qed.

(** With logging off, a series of ticks writes nothing, leaves logging off,
    and folds every delivered sample, in order, into the four rings. *)
Lemma ticks_not_saving (w : MainWindow)
  (batches : list (list (sample * list byte))) :
  temp_buffer w = [] -> is_saving w = false ->
  let w' := (ticks w batches).1 in
  let rows := (concat batches).*1 in
  (ticks w batches).2 = [] /\
  is_saving w' = false /\ save_file w' = save_file w /\
  temp_buffer w' = [] /\
  data_ch1 w' = Py.deque_extend (plot_len w) (data_ch1 w) (column 0 rows) /\
  data_ch2 w' = Py.deque_extend (plot_len w) (data_ch2 w) (column 1 rows) /\
  data_ch3 w' = Py.deque_extend (plot_len w) (data_ch3 w) (column 2 rows) /\
  data_ch4 w' = Py.deque_extend (plot_len w) (data_ch4 w) (column 3 rows).
Proof.
  revert w. induction batches as [|batch batches IH]; intros w Hb Hs.
  - cbn. repeat split; assumption || reflexivity.
  - cbn [ticks concat fst snd]. cbv zeta.
    rewrite deliver_spec, Hb. cbn [app].
    pose (w1 := with_temp_buffer w batch). fold w1.
    assert (Hs1 : is_saving w1 = false) by exact Hs.
    destruct (update_plot_not_saving w1 Hs1) as (Hout & Hs2 & Hf2).
    destruct (IH (update_plot w1).1 (update_plot_temp_buffer w1) Hs2)
      as (Hout' & Hs' & Hf' & Hb' & H1 & H2 & H3 & H4).
    assert (Hrings :
      data_ch1 (update_plot w1).1
      = Py.deque_extend (plot_len w) (data_ch1 w) (column 0 batch.*1) /\
      data_ch2 (update_plot w1).1
      = Py.deque_extend (plot_len w) (data_ch2 w) (column 1 batch.*1) /\
      data_ch3 (update_plot w1).1
      = Py.deque_extend (plot_len w) (data_ch3 w) (column 2 batch.*1) /\
      data_ch4 (update_plot w1).1
      = Py.deque_extend (plot_len w) (data_ch4 w) (column 3 batch.*1)).
    { destruct batch as [|e es].
      - assert (Hw : w1 = w)
          by (unfold w1; rewrite <- Hb; apply with_temp_buffer_id).
        rewrite Hw, (update_plot_idle w Hb). cbn. repeat split; reflexivity.
      - destruct (update_plot_drains w1 ltac:(discriminate))
          as (_ & _ & E1 & E2 & E3 & E4 & _).
        exact (conj E1 (conj E2 (conj E3 E4))). }
    destruct Hrings as (R1 & R2 & R3 & R4).
    rewrite Hout, Hout', Hs', Hf', Hf2, Hb', H1, H2, H3, H4, R1, R2, R3, R4.
    rewrite update_plot_plot_len, fmap_app, !column_app, !deque_extend_app.
    repeat split; reflexivity.
Qed.

(** C6. Right after a drain, the events pushed into the channel sit there
    in push order; the next tick takes exactly these, folds them in that
    order into the rings and the raw display, and empties the channel, so
    that a further tick finds nothing and does nothing; and a tick on an
    empty channel changes no buffer and writes nothing. *)
Theorem channel_drains_in_push_order
  (w : MainWindow) (pushed : list (sample * list byte)) :
  let w0 := (update_plot w).1 in
  let w1 := deliver w0 pushed in
  let w2 := (update_plot w1).1 in
  temp_buffer w0 = [] /\
  temp_buffer w1 = pushed /\
  length (temp_buffer w1) = length pushed /\
  data_ch1 w2 = Py.deque_extend (plot_len w) (data_ch1 w0) (column 0 pushed.*1) /\
  data_ch2 w2 = Py.deque_extend (plot_len w) (data_ch2 w0) (column 1 pushed.*1) /\
  data_ch3 w2 = Py.deque_extend (plot_len w) (data_ch3 w0) (column 2 pushed.*1) /\
  data_ch4 w2 = Py.deque_extend (plot_len w) (data_ch4 w0) (column 3 pushed.*1) /\
  (pushed = [] \/
   txt_raw_display w2
   = Py.join (String "010" EmptyString)
       (map hex_str (Py.slice pushed.*2 (Some (-5)) None))) /\
  temp_buffer w2 = [] /\
  update_plot w2 = (w2, []) /\
  update_plot (with_temp_buffer w []) = (with_temp_buffer w [], []).
Proof.
  intros w0 w1 w2.
  assert (H0 : temp_buffer w0 = []) by apply update_plot_temp_buffer.
  assert (H1 : temp_buffer w1 = pushed)
    by (subst w1; rewrite deliver_spec, H0; reflexivity).
  assert (H2 : temp_buffer w2 = []) by apply update_plot_temp_buffer.
  split; [exact H0|]. split; [exact H1|]. split; [now rewrite H1|].
  rewrite <- (update_plot_plot_len w). fold w0.
  destruct pushed as [|e es].
  - assert (Hw1 : w1 = w0).
    { subst w1. rewrite deliver_spec, H0. cbn [app].
      rewrite <- H0. apply with_temp_buffer_id. }
    subst w2. rewrite Hw1, (update_plot_idle w0 H0). cbn.
    repeat split; auto using update_plot_idle.
  - assert (Hne : temp_buffer w1 <> []) by (rewrite H1; discriminate).
    destruct (update_plot_drains w1 Hne) as (_ & _ & E1 & E2 & E3 & E4 & _ & Et).
    fold w2 in E1, E2, E3, E4, Et. rewrite H1 in E1, E2, E3, E4, Et.
    assert (Hp : plot_len w1 = plot_len w0)
      by (subst w1; now rewrite deliver_spec).
    assert (Hd : data_ch1 w1 = data_ch1 w0 /\ data_ch2 w1 = data_ch2 w0 /\
                 data_ch3 w1 = data_ch3 w0 /\ data_ch4 w1 = data_ch4 w0)
      by (subst w1; now rewrite deliver_spec).
    destruct Hd as (D1 & D2 & D3 & D4).
    rewrite Hp, D1 in E1. rewrite Hp, D2 in E2.
    rewrite Hp, D3 in E3. rewrite Hp, D4 in E4.
    repeat (split; [assumption|]).
    split; [right; exact Et|]. split; [exact H2|].
    split; apply update_plot_idle; [exact H2|reflexivity].
Qed.

(** C8. When a write to the log file fails during a tick, the failure is
    printed, the file is closed and logging is switched off; the samples of
    that tick are in the rings all the same: each ring holds its old entries
    followed by the matching component of every sample of the tick, the
    oldest entries leaving once [plot_len] is exceeded.  Every later tick
    writes nothing (no retry) and leaves logging off, and after any series
    of later ticks each ring holds its old entries followed by the matching
    component of every sample drained, those of the failing tick first and
    then those of the later ticks in arrival order, again less the oldest
    entries beyond [plot_len].  (The rings are taken within their capacity,
    which a [deque(maxlen=plot_len)] never exceeds.) *)
Theorem sink_failure_stops_logging_only
  (w : MainWindow) (f : file) (batches : list (list (sample * list byte))) :
  temp_buffer w <> [] -> is_saving w = true -> save_file w = Some f ->
  (write_rows f (temp_buffer w).*1).2 = true ->
  (length (data_ch1 w) <= plot_len w)%nat ->
  (length (data_ch2 w) <= plot_len w)%nat ->
  (length (data_ch3 w) <= plot_len w)%nat ->
  (length (data_ch4 w) <= plot_len w)%nat ->
  let rows := (temp_buffer w).*1 in
  let r := update_plot w in
  let later := ticks r.1 batches in
  let rows' := (concat batches).*1 in
  r.2 = (write_rows f rows).1.2
        ++ [Print MsgFileWriteFailed; FileClose] /\
  is_saving r.1 = false /\ save_file r.1 = None /\
  data_ch1 r.1
  = drop (length (data_ch1 w) + length rows - plot_len w)
      (data_ch1 w ++ map (fun '(a, _, _, _) => Py.Float a) rows) /\
  data_ch2 r.1
  = drop (length (data_ch2 w) + length rows - plot_len w)
      (data_ch2 w ++ map (fun '(_, b, _, _) => Py.Float b) rows) /\
  data_ch3 r.1
  = drop (length (data_ch3 w) + length rows - plot_len w)
      (data_ch3 w ++ map (fun '(_, _, c, _) => Py.Float c) rows) /\
  data_ch4 r.1
  = drop (length (data_ch4 w) + length rows - plot_len w)
      (data_ch4 w ++ map (fun '(_, _, _, d) => Py.Float d) rows) /\
  later.2 = [] /\
  is_saving later.1 = false /\ save_file later.1 = None /\
  data_ch1 later.1
  = drop (length (data_ch1 w) + length (rows ++ rows') - plot_len w)
      (data_ch1 w ++ map (fun '(a, _, _, _) => Py.Float a) (rows ++ rows')) /\
  data_ch2 later.1
  = drop (length (data_ch2 w) + length (rows ++ rows') - plot_len w)
      (data_ch2 w ++ map (fun '(_, b, _, _) => Py.Float b) (rows ++ rows')) /\
  data_ch3 later.1
  = drop (length (data_ch3 w) + length (rows ++ rows') - plot_len w)
      (data_ch3 w ++ map (fun '(_, _, c, _) => Py.Float c) (rows ++ rows')) /\
  data_ch4 later.1
  = drop (length (data_ch4 w) + length (rows ++ rows') - plot_len w)
      (data_ch4 w ++ map (fun '(_, _, _, d) => Py.Float d) (rows ++ rows')).
Proof.
  intros Hne Hs Hf Hfail L1 L2 L3 L4 rows r later rows'.
  destruct (update_plot_drains w Hne) as (Hb & Hp & E1 & E2 & E3 & E4 & _).
  fold r rows in Hb, Hp, E1, E2, E3, E4.
  assert (Hr : r.2 = (write_rows f rows).1.2
                     ++ [Print MsgFileWriteFailed; FileClose]
               /\ is_saving r.1 = false /\ save_file r.1 = None).
  { subst r. unfold update_plot.
    destruct (temp_buffer w) as [|e es] eqn:Hbuf; [congruence|].
    rewrite Hs, Hf. fold rows. fold rows in Hfail.
    destruct (write_rows f rows) as [[f' out] failed].
    cbn [fst snd] in Hfail |- *. subst failed. cbn. auto. }
  destruct Hr as (Hout & Hs' & Hf').
  destruct (ticks_not_saving r.1 batches Hb Hs')
    as (Lout & Ls & Lf & _ & T1 & T2 & T3 & T4).
  fold later rows' in Lout, Ls, Lf, T1, T2, T3, T4.
  rewrite Hp in T1, T2, T3, T4. rewrite Hf' in Lf.
  rewrite E1 in T1. rewrite E2 in T2. rewrite E3 in T3. rewrite E4 in T4.
  rewrite <- deque_extend_app, <- column_app in T1, T2, T3, T4.
  rewrite ring_after_batch in E1, E2, E3, E4, T1, T2, T3, T4 by assumption.
  destruct (column_components rows) as (C1 & C2 & C3 & C4).
  destruct (column_components (rows ++ rows')) as (C1' & C2' & C3' & C4').
  rewrite C1 in E1. rewrite C2 in E2. rewrite C3 in E3. rewrite C4 in E4.
  rewrite C1' in T1. rewrite C2' in T2. rewrite C3' in T3. rewrite C4' in T4.
  repeat (split; [assumption|]). assumption.
Qed.

(** At start-up the rings hold 1000 zeros.  After a tick whose only write
    fails and a later tick, both samples are at the end of every ring. *)
Lemma sink_failure_stops_logging_only_witness :
  is_saving (update_plot failing_log).1 = false /\
  (ticks (update_plot failing_log).1
     [[((5, 6, 7, 8)%float, example_frame x01)]]).2 = [] /\
  let later := (ticks (update_plot failing_log).1
                  [[((5, 6, 7, 8)%float, example_frame x01)]]).1 in
  data_ch1 later = repeat (Py.Int 0) 998 ++ [Py.Float 1; Py.Float 5] /\
  data_ch2 later = repeat (Py.Int 0) 998 ++ [Py.Float 2; Py.Float 6] /\
  data_ch3 later = repeat (Py.Int 0) 998 ++ [Py.Float 3; Py.Float 7] /\
  data_ch4 later = repeat (Py.Int 0) 998 ++ [Py.Float 4; Py.Float 8].
Proof.
  pose proof (sink_failure_stops_logging_only failing_log
                {| f_lines := [Header]; f_faults := [true] |}
                [[((5, 6, 7, 8)%float, example_frame x01)]]
                ltac:(discriminate) eq_refl eq_refl eq_refl
                (Nat.eq_le_incl _ _ eq_refl) (Nat.eq_le_incl _ _ eq_refl)
                (Nat.eq_le_incl _ _ eq_refl) (Nat.eq_le_incl _ _ eq_refl)) as H.
  cbv zeta in H.
  destruct H as (_ & Hs & _ & _ & _ & _ & _ & Hout & _ & _ & H1 & H2 & H3 & H4).
  split; [exact Hs|]. split; [exact Hout|]. cbv zeta.
  rewrite H1, H2, H3, H4. repeat split; vm_compute; reflexivity.
Defined.

(** ** The raw-hex display *)

(** A byte is shown as two upper-case hex digits that read back as the
    byte. *)
Lemma format_02X_spec (b : byte) :
  String.length (Py.format_02X b) = 2%nat /\
  forallb is_upper_hex (list_ascii_of_string (Py.format_02X b)) = true /\
  Py.int_base16 (Py.format_02X b) = Ok (Py.int_of_byte b).
Proof. destruct b; vm_compute; auto. Qed.

Lemma string_length_app (s1 s2 : string) :
  String.length (s1 ++ s2) = (String.length s1 + String.length s2)%nat.
Proof.
  induction s1 as [|c s1 IH]; [reflexivity|].
  change (S (String.length (s1 ++ s2)) = S (String.length s1 + String.length s2)).
  now rewrite IH.
Qed.

(** A frame is shown as its bytes, separated by single blanks. *)
Lemma hex_str_cons (b : byte) (frame : list byte) :
  hex_str (b :: frame)
  = match frame with
    | [] => Py.format_02X b
    | _ :: _ => (Py.format_02X b ++ " " ++ hex_str frame)%string
    end.
Proof. destruct frame; reflexivity. Qed.

Lemma hex_str_length (frame : list byte) :
  frame <> [] -> String.length (hex_str frame) = (3 * length frame - 1)%nat.
Proof.
  induction frame as [|b frame IH]; [congruence|]. intros _.
  rewrite hex_str_cons. destruct frame as [|b' frame'].
  - apply format_02X_spec.
  - rewrite !string_length_app, IH by discriminate.
    destruct (format_02X_spec b) as [-> _]. cbn [String.length length]. lia.
Qed.

(** C9 (as the code has it). A tick that drains a non-empty batch sets the
    raw-hex box to the last five frames of that batch -- all of them when
    the batch holds fewer than five -- one frame per line; each line shows
    the bytes of its frame as two upper-case hex digits that read back as
    the byte, separated by single blanks, which makes 119 characters for a
    40-byte frame. *)
Theorem raw_display_shows_end_of_batch (w : MainWindow) :
  temp_buffer w <> [] ->
  let batch := (temp_buffer w).*2 in
  txt_raw_display (update_plot w).1
  = Py.join (String "010" EmptyString)
      (map hex_str (drop (length batch - 5) batch)) /\
  length (drop (length batch - 5) batch) = Nat.min 5 (length batch) /\
  (forall b frame,
     hex_str (b :: frame)
     = match frame with
       | [] => Py.format_02X b
       | _ :: _ => (Py.format_02X b ++ " " ++ hex_str frame)%string
       end) /\
  (forall b,
     String.length (Py.format_02X b) = 2%nat /\
     forallb is_upper_hex (list_ascii_of_string (Py.format_02X b)) = true /\
     Py.int_base16 (Py.format_02X b) = Ok (Py.int_of_byte b)) /\
  (forall frame, length frame = 40%nat ->
     String.length (hex_str frame) = 119%nat).
Proof.
  intros Hne batch.
  destruct (update_plot_drains w Hne) as (_ & _ & _ & _ & _ & _ & _ & Ht).
  rewrite Ht, slice_tail by lia. change (Z.to_nat (- -5)) with 5%nat. fold batch.
  split; [reflexivity|]. split; [rewrite length_drop; lia|].
  split; [exact hex_str_cons|]. split; [exact format_02X_spec|].
  intros frame Hlen. rewrite hex_str_length; [lia|].
  intros ->. discriminate Hlen.
Qed.

Lemma raw_display_shows_end_of_batch_witness :
  txt_raw_display (update_plot failing_log).1
  = Py.join (String "010" EmptyString) [hex_str (example_frame x00)].
Proof.
  exact (proj1 (raw_display_shows_end_of_batch failing_log
                  ltac:(discriminate))).
Defined.

(** C9 (as the specification has it) fails: after a tick that drained five
    frames, a tick that drains a single frame shows that one frame only, not
    the five most recent frames received. *)
Lemma raw_display_forgets_earlier_batches :
  let w := (ticks MainWindow_init [take 5 six_signals; drop 5 six_signals]).1 in
  txt_raw_display w = hex_str (example_frame x06) /\
  txt_raw_display w
  <> Py.join (String "010" EmptyString) (map hex_str (drop 1 six_signals.*2)).
Proof.
  split; [vm_compute; reflexivity|].
  intros H. apply (f_equal String.length) in H. vm_compute in H. discriminate H.
Qed.

(** ** The outgoing configuration packet *)

(** [all_ascii] lists every character. *)
Lemma all_ascii_complete (c : ascii) : In c all_ascii.
Proof.
  unfold all_ascii. apply in_map_iff. exists (nat_of_ascii c).
  split; [apply ascii_nat_embedding|].
  apply in_seq. pose proof (nat_ascii_bounded c). lia.
Qed.

(** A boolean property of all texts of at most two characters can be
    checked by running through them. *)
Lemma short_string_cases (P : string -> bool) :
  P EmptyString = true ->
  forallb (fun c1 => P (String c1 EmptyString)) all_ascii = true ->
  forallb (fun c1 => forallb (fun c2 => P (String c1 (String c2 EmptyString)))
                       all_ascii) all_ascii = true ->
  forall t, (String.length t <= 2)%nat -> P t = true.
Proof.
  intros H0 H1 H2 t Hlen.
  destruct t as [|c1 [|c2 [|c3 t]]]; [exact H0| | |cbn in Hlen; lia].
  - rewrite forallb_forall in H1. apply H1, all_ascii_complete.
  - rewrite forallb_forall in H2.
    pose proof (H2 c1 (all_ascii_complete c1)) as H.
    rewrite forallb_forall in H. apply H, all_ascii_complete.
Qed.

(** Every hexadecimal byte of one or two digits is accepted. *)
Lemma short_hex_bytes_accepted (t : string) :
  (String.length t <= 2)%nat ->
  is_hex_byte_text t = true -> field_accepted t = true.
Proof.
  intros Hlen Hhex.
  pose proof (short_string_cases
                (fun t => implb (is_hex_byte_text t) (field_accepted t))
                ltac:(vm_compute; reflexivity) ltac:(vm_compute; reflexivity)
                ltac:(vm_compute; reflexivity) t Hlen) as H.
  cbv beta in H. now rewrite Hhex in H.
Qed.

(** One pass of the packet loop over a field. *)
Lemma build_packet_field (t : string) (items : list send_item)
  (packet : list byte) :
  field_accepted t = false ->
  exists e, build_packet (Field t :: items) packet = Raise e.
Proof.
  unfold field_accepted. cbn [build_packet].
  destruct (Py.strip t) as [|c text]; [discriminate|].
  destruct (Py.int_base16 (String c text)) as [val|e]; cbn [bind]; [|eauto].
  intros ->. cbn. eauto.
Qed.

(** A field that is not accepted makes the whole loop raise, wherever it
    stands. *)
Lemma build_packet_rejects (items : list send_item) (t : string)
  (packet : list byte) :
  In (Field t) items -> field_accepted t = false ->
  exists e, build_packet items packet = Raise e.
Proof.
  intros Hin Hrej. revert packet.
  induction items as [|item items IH]; intros packet; [destruct Hin|].
  destruct Hin as [->|Hin]; [now apply build_packet_field|].
  destruct item as [val|t']; cbn [build_packet].
  - destruct (Py.bytearray_append packet val) as [p|e]; cbn [bind]; eauto.
  - destruct (match Py.strip t' with
              | EmptyString => Ok 0
              | String _ _ => Py.int_base16 (Py.strip t')
              end) as [val|e]; cbn [bind]; [|eauto].
    destruct (negb ((0 <=? val) && (val <=? 255))); [eauto|].
    destruct (Py.bytearray_append packet val) as [p|e]; cbn [bind]; eauto.
Qed.

(** Updating the coefficients does not touch the port. *)
Lemma update_coeff_only_port (w w' : MainWindow) (out : list effect) :
  update_coeff_only w = Ok (w', out) ->
  serial_port (serial_thread w') = serial_port (serial_thread w).
Proof.
  unfold update_coeff_only, update_frequency_gain.
  destruct (FREQ_G_MAP !! combo_freq w) as [g|]; [|discriminate].
  cbn [of_option bind].
  destruct (calculate_coeffs g) as [[nf na]|e]; [|discriminate].
  cbn [bind fst snd]. now intros [= <- _].
Qed.

(** What [construct_and_send] writes to an open, working port once the loop
    has built [packet]. *)
Lemma construct_and_send_writes (w : MainWindow) (packet : list byte) :
  is_running (serial_thread w) = true ->
  sp_is_open (serial_port (serial_thread w)) = true ->
  sp_write_fails (serial_port (serial_thread w)) = false ->
  build_packet (send_structure w) [] = Ok packet ->
  sp_written (serial_port (serial_thread (construct_and_send w).1))
  = sp_written (serial_port (serial_thread w)) ++ [packet].
Proof.
  intros Hrun Hopen Hok Hbuild. unfold construct_and_send.
  rewrite Hrun, Hbuild. cbn [negb]. unfold send_data. rewrite Hopen, Hok.
  cbn [fst snd].
  match goal with
  | |- context [update_coeff_only ?x] =>
      destruct (update_coeff_only x) as [[w' out]|e] eqn:E
  end.
  - cbn [fst]. now rewrite (update_coeff_only_port _ _ _ E).
  - reflexivity.
Qed.

(** C4 (as the code has it). With every field reading "00", a connected
    window sends exactly the 25 bytes 00 24 00 25 ... 00 2E 00 00 00: the
    fixed bytes 0x24..0x2E sit at the positions 1, 3, ..., 21, every other
    position holds the user byte 0x00, and the sequence listed by the
    specification occupies the positions 1 to 23. *)
Theorem all_zero_fields_packet (w : MainWindow) :
  is_running (serial_thread w) = true ->
  sp_is_open (serial_port (serial_thread w)) = true ->
  sp_write_fails (serial_port (serial_thread w)) = false ->
  send_structure w = init_send_structure ->
  build_packet (send_structure w) [] = Ok all_zero_packet /\
  sp_written (serial_port (serial_thread (construct_and_send w).1))
  = sp_written (serial_port (serial_thread w)) ++ [all_zero_packet] /\
  length all_zero_packet = 25%nat /\
  (forall k, (k < 11)%nat ->
     all_zero_packet !! (2 * k + 1)%nat = Byte.of_N (0x24 + N.of_nat k)) /\
  (forall i, (i < 25)%nat -> Nat.even i = true \/ (21 < i)%nat ->
     all_zero_packet !! i = Some x00) /\
  all_zero_packet = x00 :: listed_sequence ++ [x00].
Proof.
  intros Hrun Hopen Hok Hs.
  assert (Hb : build_packet (send_structure w) [] = Ok all_zero_packet)
    by (rewrite Hs; vm_compute; reflexivity).
  split; [exact Hb|].
  split; [now apply construct_and_send_writes|].
  split; [reflexivity|]. split; [|split; [|reflexivity]].
  - intros k Hk. do 11 (destruct k as [|k]; [reflexivity|]). lia.
  - intros i Hi Hpos.
    do 25 (destruct i as [|i];
           [first [reflexivity | cbn in Hpos; destruct Hpos; (discriminate || lia)]|]).
    lia.
Qed.

Lemma all_zero_fields_packet_witness :
  sp_written (serial_port (serial_thread (construct_and_send connected).1))
  = [all_zero_packet].
Proof.
  exact (proj1 (proj2 (all_zero_fields_packet connected
                         eq_refl eq_refl eq_refl eq_refl))).
Defined.

(** C4 (as the specification has it) fails: the packet sent for all-"00"
    fields starts with the user byte 0x00, not with 0x24, so it is not the
    listed sequence followed by padding. *)
Lemma packet_does_not_start_with_fixed_byte :
  sp_written (serial_port (serial_thread (construct_and_send connected).1))
  = [all_zero_packet] /\
  all_zero_packet !! 0%nat = Some x00 /\
  listed_sequence !! 0%nat = Some x24 /\
  ~ (exists padding, all_zero_packet = listed_sequence ++ padding).
Proof.
  split; [vm_compute; reflexivity|].
  split; [reflexivity|]. split; [reflexivity|].
  intros [padding H]. discriminate H.
Qed.

(** C5 (as the code has it). If a field's text, stripped of surrounding
    whitespace, is not empty and [int(text, 16)] raises or returns a value
    outside 0..255, [construct_and_send] changes nothing -- nothing is
    written to the port, the coefficients stay as they were -- and, when the
    thread runs, shows the error box.  The test is the one of the loop: a
    field gets through exactly when its stripped text is empty (even though
    that is no hexadecimal byte) or [int(text, 16)] returns a value within
    0..255; every hexadecimal byte of one or two digits gets through. *)
Theorem rejected_field_sends_nothing (w : MainWindow) (t : string) :
  In (Field t) (send_structure w) -> field_accepted t = false ->
  (construct_and_send w).1 = w /\
  sp_written (serial_port (serial_thread (construct_and_send w).1))
  = sp_written (serial_port (serial_thread w)) /\
  (is_running (serial_thread w) = true ->
   (construct_and_send w).2 = [MessageBox BoxCritical]) /\
  (forall t',
     field_accepted t' = true <->
     Py.strip t' = EmptyString \/
     exists val, Py.int_base16 (Py.strip t') = Ok val /\ 0 <= val <= 255) /\
  (forall t', (String.length t' <= 2)%nat ->
     is_hex_byte_text t' = true -> field_accepted t' = true).
Proof.
  intros Hin Hrej.
  assert (H : (construct_and_send w).1 = w /\
              (is_running (serial_thread w) = true ->
               (construct_and_send w).2 = [MessageBox BoxCritical])).
  { unfold construct_and_send.
    destruct (is_running (serial_thread w)); cbn [negb]; [|split; [reflexivity|discriminate]].
    destruct (build_packet_rejects _ _ [] Hin Hrej) as [e ->]. now split. }
  destruct H as [Hw Hbox].
  split; [exact Hw|]. split; [now rewrite Hw|]. split; [exact Hbox|].
  split; [|intros t' Hlen; now apply short_hex_bytes_accepted].
  intros t'. unfold field_accepted.
  destruct (Py.strip t') as [|c text]; [split; auto|].
  destruct (Py.int_base16 (String c text)) as [val|e].
  - rewrite andb_true_iff, Z.leb_le, Z.leb_le. split.
    + intros Hval. right. exists val. split; [reflexivity|exact Hval].
    + intros [Hempty|(val' & [= <-] & Hval)]; [discriminate Hempty|exact Hval].
  - split; [discriminate|].
    intros [Hempty|(val' & Hraise & _)]; discriminate.
Qed.

Lemma rejected_field_sends_nothing_witness :
  (construct_and_send first_field_not_hex).1 = first_field_not_hex /\
  (construct_and_send first_field_not_hex).2
  = [MessageBox BoxCritical].
Proof.
  destruct (rejected_field_sends_nothing first_field_not_hex "zz"
              (or_introl eq_refl) eq_refl) as (Hw & _ & Hbox & _).
  split; [exact Hw | exact (Hbox eq_refl)].
Defined.

(** C5 (as the specification has it) fails: an empty field is not a
    hexadecimal byte, yet the packet is sent, with 0x00 in its place. *)
Lemma empty_field_is_sent_as_zero :
  is_hex_byte_text EmptyString = false /\
  In (Field EmptyString) (send_structure first_field_cleared) /\
  build_packet (send_structure first_field_cleared) [] = Ok all_zero_packet /\
  sp_written (serial_port (serial_thread
                (construct_and_send first_field_cleared).1))
  = [all_zero_packet] /\
  all_zero_packet !! 0%nat = Some x00.
Proof.
  split; [reflexivity|]. split; [left; reflexivity|].
  split; [vm_compute; reflexivity|].
  split; [vm_compute; reflexivity|reflexivity].
Qed.

(** * Further properties *)

(** ** Acquisition *)

(** A stopped thread reads nothing. *)
Lemma run_stopped (st : SerialThread) (evs : list port_event) :
  is_running st = false -> run st evs = (st, []).
Proof. intros H. destruct evs; cbn [run]; [reflexivity|now rewrite H]. Qed.

(** [run] over two stretches of events is [run] over the first, then over
    the second from where the first ended. *)
Lemma run_app (st : SerialThread) (evs1 evs2 : list port_event) :
  run st (evs1 ++ evs2)
  = ((run (run st evs1).1 evs2).1,
     (run st evs1).2 ++ (run (run st evs1).1 evs2).2).
Proof.
  revert st. induction evs1 as [|ev evs1 IH]; intros st.
  - cbn [app run fst snd]. now destruct (run st evs2).
  - cbn [app run]. destruct (is_running st) eqn:Hrun.
    + rewrite IH. cbn [fst snd]. now rewrite app_assoc.
    + cbn [fst snd app]. now rewrite run_stopped.
Qed.

Lemma run_waiting_running (st : SerialThread) (chunks : list (list byte)) :
  is_running (run st (map Waiting chunks)).1 = is_running st.
Proof.
  revert st. induction chunks as [|c chunks IH]; intros st; [reflexivity|].
  cbn [map run]. destruct (is_running st) eqn:Hrun; [|exact Hrun].
  cbn [fst]. now rewrite IH, run_iteration_waiting_running.
Qed.

(** Reads in a row act as one read of all their bytes. *)
Lemma run_waiting_concat (st : SerialThread) (chunks : list (list byte)) :
  run st (map Waiting chunks) = run st [Waiting (concat chunks)].
Proof.
  revert st. induction chunks as [|c chunks IH]; intros st.
  - cbn. now destruct (is_running st).
  - cbn [map concat run]. destruct (is_running st) eqn:Hrun; [|reflexivity].
    rewrite IH. cbn [run].
    rewrite run_iteration_waiting_running, Hrun. cbn [fst snd].
    rewrite run_iteration_app. cbn [fst snd]. now rewrite !app_nil_r.
Qed.

Lemma run_iteration_short (st : SerialThread) (ev : port_event) :
  (length (buffer st) < 40)%nat ->
  (length (buffer (run_iteration st ev).1) < 40)%nat.
Proof.
  intros H. destruct ev as [[|b raw]|]; [exact H| |exact H].
  apply run_while_residual.
Qed.

(** X1. The buffer never holds a whole frame between two turns of the
    loop. *)
Theorem buffer_stays_below_a_frame (st : SerialThread) (evs : list port_event) :
  (length (buffer st) < 40)%nat ->
  (length (buffer (run st evs).1) < 40)%nat.
Proof.
  revert st. induction evs as [|ev evs IH]; intros st H; [exact H|].
  cbn [run]. destruct (is_running st); [|exact H].
  cbn [fst]. now apply IH, run_iteration_short.
Qed.

Lemma buffer_stays_below_a_frame_witness :
  (length (buffer (run listening [Waiting (example_frame x00 ++ [x01]);
                                  PortError; Waiting [x02]]).1) < 40)%nat.
Proof.
  apply (buffer_stays_below_a_frame listening). cbn. lia.
Defined.

(** X2. A failure of the port ends the acquisition for good.  After the
    reads that precede it, the thread prints the error and stops; whatever
    the port offers afterwards is ignored, while the buffered bytes and the
    coefficients stay as they were. *)
Theorem port_error_is_final
  (st : SerialThread) (chunks : list (list byte)) (evs : list port_event) :
  is_running st = true ->
  let before := run st (map Waiting chunks) in
  let after := run st (map Waiting chunks ++ PortError :: evs) in
  after = (with_running before.1 false, before.2 ++ [Print MsgThreadError]) /\
  is_running after.1 = false /\
  buffer after.1 = buffer before.1 /\
  current_coeffs after.1 = current_coeffs st /\
  forall evs', run after.1 evs' = (after.1, []).
Proof.
  intros Hrun before after.
  assert (Hafter : after = (with_running before.1 false,
                            before.2 ++ [Print MsgThreadError])).
  { subst after before. rewrite run_app. cbn [run].
    rewrite run_waiting_running, Hrun. cbn [run_iteration fst snd].
    rewrite run_stopped by reflexivity. cbn [fst snd]. now rewrite app_nil_r. }
  rewrite Hafter. cbn [fst snd]. repeat split.
  - cbn [current_coeffs with_running]. subst before. apply run_coeffs.
  - intros evs'. now apply run_stopped.
Qed.

Lemma port_error_is_final_witness :
  run listening (map Waiting [[xaa; x01]] ++ PortError :: [Waiting [x02]])
  = (with_running (run listening (map Waiting [[xaa; x01]])).1 false,
     (run listening (map Waiting [[xaa; x01]])).2 ++ [Print MsgThreadError]).
Proof.
  exact (proj1 (port_error_is_final listening [[xaa; x01]] [Waiting [x02]]
                  eq_refl)).
Defined.

Section Stream.

Variable coeffs : list Py.num.

(** A stream of whole frames is cut exactly at the frame boundaries. *)
Lemma run_while_frames (fs : list (list byte)) :
  Forall wire_frame fs ->
  run_while coeffs (concat fs) = ([], concat (map (handle_frame coeffs) fs)).
Proof.
  induction 1 as [|f fs [Hlen Hhd] _ IH]; [now rewrite run_while_short by (cbn; lia)|].
  cbn [concat map]. rewrite run_while_once, run_while_body_frame.
  - rewrite drop_app_length', take_app_length' by (symmetry; exact Hlen).
    now rewrite IH.
  - rewrite length_app. lia.
  - destruct f; [discriminate|exact Hhd].
Qed.

(** Bytes without a sentinel in front of at least 40 further bytes are
    dropped one by one. *)
Lemma run_while_skips_garbage (garbage rest : list byte) :
  Forall (fun b => b <> xaa) garbage -> (40 <= length rest)%nat ->
  run_while coeffs (garbage ++ rest) = run_while coeffs rest.
Proof.
  intros Hg Hrest. induction Hg as [|b garbage Hb _ IH]; [reflexivity|].
  cbn [app]. rewrite run_while_once, run_while_body_skip.
  - cbn [fst snd app]. rewrite IH. now destruct (run_while coeffs rest).
  - cbn [length]. rewrite length_app. lia.
  - exact Hb.
Qed.

(** Every emitted frame is a run of 40 consecutive bytes of the buffer. *)
Lemma run_while_frames_consecutive (buf f : list byte) :
  f ∈ emitted_frames (run_while coeffs buf).2 ->
  exists pre post, buf = pre ++ f ++ post.
Proof.
  induction buf as [buf IH] using length_ind.
  rewrite run_while_once.
  destruct (run_while_body coeffs buf) as [[buf' out]|] eqn:E;
    [|cbn; intros H; now apply elem_of_nil in H].
  pose proof (run_while_body_decreases _ _ _ _ E) as Hlt.
  cbn [snd]. unfold emitted_frames, emitted.
  rewrite omap_app, fmap_app, elem_of_app.
  apply run_while_body_Some in E as [Hlen [(Hhd & -> & ->)|(b0 & _ & -> & ->)]].
  - intros [H|H].
    + unfold handle_frame in H.
      destruct (decode_frame coeffs (take 40 buf)); cbn in H;
        [|now apply elem_of_nil in H].
      apply list_elem_of_singleton in H as ->.
      exists [], (drop 40 buf). cbn [app]. now rewrite take_drop.
    + destruct (IH _ Hlt H) as (pre & post & Hd).
      exists (take 40 buf ++ pre), post.
      rewrite <- app_assoc, <- Hd. now rewrite take_drop.
  - intros [H|H]; [cbn in H; now apply elem_of_nil in H|].
    destruct (IH _ Hlt H) as (pre & post & ->).
    now exists (b0 :: pre), post.
Qed.

(** Emitted frames do not overlap: each one uses up 40 bytes of its own. *)
Lemma run_while_frames_count (buf : list byte) :
  (40 * length (emitted (run_while coeffs buf).2)
   + length (run_while coeffs buf).1 <= length buf)%nat.
Proof.
  induction buf as [buf IH] using length_ind.
  rewrite run_while_once.
  destruct (run_while_body coeffs buf) as [[buf' out]|] eqn:E; [|cbn; lia].
  pose proof (run_while_body_decreases _ _ _ _ E) as Hlt.
  specialize (IH _ Hlt). cbn [fst snd]. unfold emitted in *.
  rewrite omap_app, length_app.
  apply run_while_body_Some in E as [Hlen [(Hhd & -> & ->)|(b0 & _ & -> & ->)]].
  - rewrite length_drop in *.
    assert (length (omap (fun e => match e with
                                   | Emit d r => Some (d, r)
                                   | _ => None
                                   end) (handle_frame coeffs (take 40 buf)))
            <= 1)%nat
      by (unfold handle_frame; destruct (decode_frame coeffs (take 40 buf));
          cbn; lia).
    lia.
  - cbn in *. lia.
Qed.

End Stream.

(** Under the coefficients of a preset every frame decodes. *)
Lemma preset_coeffs_decode (g : Z) (coeffs : list Py.num) (f : list byte) :
  preset_coeffs g coeffs ->
  exists d, decode_frame coeffs f = Ok d /\ handle_frame coeffs f = [Emit d f].
Proof.
  intros (Hg & nf & na & Hc & ->).
  destruct (coeffs_table g Hg) as (nf' & na' & Hc' & _ & _ & _ & _ & Hnz & Hpos).
  rewrite Hc in Hc'. injection Hc' as <- <-.
  destruct (decode_frame_fields nf na f Hnz Hpos) as (d3 & d4 & _ & _ & Hd).
  eexists. split; [exact Hd|]. unfold handle_frame. now rewrite Hd.
Qed.

Lemma emitted_frames_handle (g : Z) (coeffs : list Py.num)
  (fs : list (list byte)) :
  preset_coeffs g coeffs ->
  emitted_frames (concat (map (handle_frame coeffs) fs)) = fs.
Proof.
  intros Hp. induction fs as [|f fs IH]; [reflexivity|].
  destruct (preset_coeffs_decode g coeffs f Hp) as (d & _ & Hh).
  cbn [map concat]. rewrite Hh. cbn [app].
  unfold emitted_frames, emitted in *. cbn. now rewrite IH.
Qed.

(** X3. Resynchronisation.  When what is buffered plus what arrives, in
    whatever chunks, is some bytes without a sentinel followed by whole
    frames, every frame is handled, in order, nothing else is, and the
    buffer ends empty; under the coefficients of a preset the emitted
    frames are exactly the frames of the stream. *)
Theorem stream_of_frames_is_recovered
  (st : SerialThread) (garbage : list byte) (fs : list (list byte))
  (chunks : list (list byte)) :
  is_running st = true -> (length (buffer st) < 40)%nat ->
  Forall (fun b => b <> xaa) garbage -> Forall wire_frame fs -> fs <> [] ->
  buffer st ++ concat chunks = garbage ++ concat fs ->
  run st (map Waiting chunks)
  = (with_buffer st [], concat (map (handle_frame (current_coeffs st)) fs)) /\
  (forall g, preset_coeffs g (current_coeffs st) ->
     emitted_frames (run st (map Waiting chunks)).2 = fs).
Proof.
  intros Hrun Hshort Hg Hfs Hne Hstream.
  assert (Hlen : (40 <= length (concat fs))%nat).
  { destruct Hfs as [|f fs' [Hf _] _]; [congruence|].
    cbn [concat]. rewrite length_app. lia. }
  assert (Hrunall : run st (map Waiting chunks)
            = (with_buffer st [],
               concat (map (handle_frame (current_coeffs st)) fs))).
  { rewrite run_waiting_concat. cbn [run]. rewrite Hrun.
    destruct (concat chunks) as [|b raw] eqn:Hc.
    - rewrite app_nil_r in Hstream.
      apply (f_equal length) in Hstream. rewrite length_app in Hstream. lia.
    - cbn [run_iteration fst snd]. rewrite Hstream.
      rewrite run_while_skips_garbage, run_while_frames by assumption.
      cbn [fst snd]. now rewrite app_nil_r. }
  split; [exact Hrunall|].
  intros g Hp. rewrite Hrunall. cbn [snd]. now apply (emitted_frames_handle g).
Qed.

Lemma stream_of_frames_is_recovered_witness :
  emitted_frames
    (run listening
       (map Waiting [[x01; x02; xaa]; drop 1 (example_frame x00);
                     take 7 (example_frame x05);
                     drop 7 (example_frame x05)])).2
  = [example_frame x00; example_frame x05].
Proof.
  refine (proj2 (stream_of_frames_is_recovered listening [x01; x02]
                   [example_frame x00; example_frame x05]
                   [[x01; x02; xaa]; drop 1 (example_frame x00);
                    take 7 (example_frame x05); drop 7 (example_frame x05)]
                   eq_refl _ _ _ _ eq_refl) 0 _).
  - cbn. lia.
  - repeat constructor; discriminate.
  - repeat constructor.
  - discriminate.
  - split; [lia|]. do 2 eexists. split; reflexivity.
Defined.

(** X4. Every frame emitted by a read is a run of 40 consecutive bytes of
    what was buffered followed by what was read, and the frames share no
    byte: together with what stays in the buffer they fit in that stream. *)
Theorem emitted_frames_are_disjoint_runs
  (st : SerialThread) (b : byte) (raw : list byte) :
  let fed := buffer st ++ b :: raw in
  let r := run_iteration st (Waiting (b :: raw)) in
  (forall f, f ∈ emitted_frames r.2 -> exists pre post, fed = pre ++ f ++ post) /\
  (40 * length (emitted_frames r.2) + length (buffer r.1) <= length fed)%nat.
Proof.
  intros fed r. split.
  - intros f. apply run_while_frames_consecutive.
  - unfold emitted_frames. rewrite length_fmap.
    apply run_while_frames_count.
Qed.

(** A slice inside the window of bytes 3..38. *)
Lemma field_window {A} (l : list A) (k n : nat) :
  (k + n <= 36)%nat ->
  take n (drop (3 + k) l) = take n (drop k (take 36 (drop 3 l))).
Proof.
  intros H. rewrite <- drop_drop.
  rewrite (take_drop_commute (take 36 (drop 3 l))), take_take.
  rewrite Nat.min_l by lia. now rewrite <- take_drop_commute.
Qed.

(** X5. The sample depends on bytes 3 to 38 of the frame only; the sentinel,
    the two bytes after it and the last byte play no part in it. *)
Theorem decode_ignores_reserved_bytes
  (coeffs : list Py.num) (f f' : list byte) :
  take 36 (drop 3 f) = take 36 (drop 3 f') ->
  decode_frame coeffs f = decode_frame coeffs f'.
Proof.
  intros H. unfold decode_frame. rewrite !slice_range by lia.
  change (Z.to_nat (14 - 3)) with 11%nat. change (Z.to_nat (25 - 14)) with 11%nat.
  change (Z.to_nat (32 - 25)) with 7%nat. change (Z.to_nat (39 - 32)) with 7%nat.
  change (Z.to_nat 3) with (3 + 0)%nat. change (Z.to_nat 14) with (3 + 11)%nat.
  change (Z.to_nat 25) with (3 + 22)%nat. change (Z.to_nat 32) with (3 + 29)%nat.
  rewrite !field_window by lia. now rewrite H.
Qed.

Lemma decode_ignores_reserved_bytes_witness :
  decode_frame (current_coeffs SerialThread_init) (example_frame x00)
  = decode_frame (current_coeffs SerialThread_init)
      ([x55; x11; x22] ++ drop 3 (take 39 (example_frame x00)) ++ [xff]).
Proof.
  apply (decode_ignores_reserved_bytes (current_coeffs SerialThread_init)).
  reflexivity.
Defined.

(** X6. A frame is decoded with the coefficients in force when it is
    completed.  If a frame arrives in two reads and the gain is changed in
    between, the first read emits nothing, and the second emits the frame
    once, decoded under the new coefficients. *)
Theorem split_frame_uses_new_coefficients
  (st st2 : SerialThread) (out : list effect) (g : Z) (f1 f2 : list byte) :
  buffer st = [] -> wire_frame (f1 ++ f2) -> f1 <> [] -> f2 <> [] ->
  0 <= g <= 3 ->
  update_frequency_gain (run_iteration st (Waiting f1)).1 g = Ok (st2, out) ->
  (run_iteration st (Waiting f1)).2 = [] /\
  preset_coeffs g (current_coeffs st2) /\
  exists d, decode_frame (current_coeffs st2) (f1 ++ f2) = Ok d /\
            run_iteration st2 (Waiting f2)
            = (with_buffer st2 [], [Emit d (f1 ++ f2)]).
Proof.
  intros Hbuf [Hlen Hhd] Hf1 Hf2 Hg Hupd.
  rewrite length_app in Hlen.
  assert (Hl1 : (0 < length f1 < 40)%nat)
    by (destruct f1, f2; cbn in *; try congruence; lia).
  destruct f1 as [|b1 f1]; [congruence|]. destruct f2 as [|b2 f2]; [congruence|].
  cbn [run_iteration fst snd] in *. rewrite Hbuf in *. cbn [app] in Hupd |- *.
  rewrite (run_while_short _ (b1 :: f1)) in * by lia. cbn [fst snd] in *.
  unfold update_frequency_gain in Hupd.
  destruct (coeffs_table g Hg) as (nf & na & Hc & _).
  rewrite Hc in Hupd. cbn [bind] in Hupd. injection Hupd as <- _.
  cbn [current_coeffs buffer with_coeffs with_buffer].
  assert (Hp : preset_coeffs g [Py.Float nf; Py.Float nf; Py.Int na; Py.Int na])
    by (split; [exact Hg|]; now exists nf, na).
  split; [reflexivity|]. split; [exact Hp|].
  destruct (preset_coeffs_decode g _ ((b1 :: f1) ++ b2 :: f2) Hp) as (d & Hd & Hh).
  exists d. split; [exact Hd|].
  pose proof (run_while_frames [Py.Float nf; Py.Float nf; Py.Int na; Py.Int na]
                [(b1 :: f1) ++ b2 :: f2]) as Hfr.
  cbn [concat map] in Hfr. rewrite !app_nil_r in Hfr.
  rewrite Hfr, Hh; [reflexivity|].
  constructor; [|constructor]. split; [rewrite length_app; exact Hlen|exact Hhd].
Qed.

Lemma split_frame_uses_new_coefficients_witness :
  exists d st2,
    update_frequency_gain
      (run_iteration listening (Waiting (take 7 (example_frame x00)))).1 3
    = Ok (st2, [Print (MsgCoeffs 3 (Py.Float 99169696140262555648)
                         (Py.Int 4398046511104))]) /\
    run_iteration st2 (Waiting (drop 7 (example_frame x00)))
    = (with_buffer st2 [], [Emit d (example_frame x00)]).
Proof.
  destruct (split_frame_uses_new_coefficients listening _ _ 3
              (take 7 (example_frame x00)) (drop 7 (example_frame x00))
              eq_refl (conj eq_refl eq_refl) ltac:(discriminate)
              ltac:(discriminate) ltac:(lia) eq_refl)
    as (_ & _ & d & _ & H).
  exists d. eexists. split; [reflexivity|exact H].
Defined.

(** ** The rings *)

Lemma np_array_length (d : list Py.num) : length (np_array d) = length d.
Proof. apply length_map. Qed.

(** X7. The four rings keep their capacity.  If each ring holds [plot_len]
    entries before a tick (as at start-up), it does so after the tick, and
    after a tick that drained something it holds the last [plot_len] of its
    old entries followed by the new values, and each curve is drawn from
    exactly [plot_len] points. *)
Theorem rings_keep_their_capacity (w : MainWindow) :
  length (data_ch1 w) = plot_len w -> length (data_ch2 w) = plot_len w ->
  length (data_ch3 w) = plot_len w -> length (data_ch4 w) = plot_len w ->
  let w' := (update_plot w).1 in
  let rows := (temp_buffer w).*1 in
  (length (data_ch1 w') = plot_len w' /\ length (data_ch2 w') = plot_len w' /\
   length (data_ch3 w') = plot_len w' /\ length (data_ch4 w') = plot_len w') /\
  data_ch1 w' = drop (length rows) (data_ch1 w ++ column 0 rows) /\
  data_ch2 w' = drop (length rows) (data_ch2 w ++ column 1 rows) /\
  data_ch3 w' = drop (length rows) (data_ch3 w ++ column 2 rows) /\
  data_ch4 w' = drop (length rows) (data_ch4 w ++ column 3 rows) /\
  (temp_buffer w <> [] ->
   Forall (fun curve => length curve = plot_len w) (curves w')).
Proof.
  intros H1 H2 H3 H4 w' rows.
  assert (Hcol : forall k, length (column k rows) = length rows)
    by (intros k; apply length_map).
  assert (Hkeep : forall k d, length d = plot_len w ->
            Py.deque_extend (plot_len w) d (column k rows)
            = drop (length rows) (d ++ column k rows)).
  { intros k d Hd. rewrite deque_extend_keeps_last by lia.
    rewrite Hcol. f_equal. lia. }
  destruct (temp_buffer w) as [|e es] eqn:Hb.
  - subst w' rows. rewrite (update_plot_idle w Hb). cbn.
    rewrite !app_nil_r. repeat split; auto. congruence.
  - assert (Hne : temp_buffer w <> []) by congruence.
    destruct (update_plot_drains w Hne)
      as (_ & Hp & E1 & E2 & E3 & E4 & Hcv & _).
    rewrite Hb in E1, E2, E3, E4. fold w' rows in Hp, E1, E2, E3, E4, Hcv.
    rewrite Hp, E1, E2, E3, E4.
    split; [repeat split; now apply deque_extend_length|].
    rewrite !Hkeep by assumption. repeat (split; [reflexivity|]).
    intros _. rewrite Hcv, E1, E2, E3, E4.
    repeat constructor; now rewrite np_array_length, deque_extend_length.
Qed.

Lemma rings_keep_their_capacity_witness :
  length (data_ch1 (update_plot failing_log).1) = 1000%nat.
Proof.
  exact (proj1 (proj1 (rings_keep_their_capacity failing_log
                         eq_refl eq_refl eq_refl eq_refl))).
Defined.

(** ** The log file *)

(** Writing rows to a file whose device fails at the write number [k]
    (counting from 0) and at none before. *)
Lemma write_rows_until_fault (f : file) (rows : list sample)
  (k : nat) (later : list bool) :
  f_faults f = repeat false k ++ true :: later -> (k < length rows)%nat ->
  write_rows f rows
  = ({| f_lines := f_lines f ++ map Row (take k rows);
        f_faults := true :: later |},
     map (fun r => FileWrite (Row r)) (take k rows), true).
Proof.
  revert f k. induction rows as [|r rows IH]; intros f k Hf Hk; [cbn in Hk; lia|].
  cbn [write_rows]. unfold file_write.
  destruct k as [|k]; cbn [repeat app] in Hf; rewrite Hf.
  - cbn [take map]. rewrite app_nil_r. rewrite <- Hf. now destruct f.
  - rewrite (IH _ k) by (cbn [f_faults length] in *; reflexivity || lia).
    cbn [f_lines take map]. now rewrite <- app_assoc.
Qed.

(** Writing rows to a file whose device does not fail. *)
Lemma write_rows_no_fault (f : file) (rows : list sample) :
  Forall (fun fault => fault = false) (f_faults f) ->
  write_rows f rows
  = ({| f_lines := f_lines f ++ map Row rows;
        f_faults := drop (length rows) (f_faults f) |},
     map (fun r => FileWrite (Row r)) rows, false).
Proof.
  revert f. induction rows as [|r rows IH]; intros f Hf.
  - cbn. rewrite app_nil_r. now destruct f.
  - cbn [write_rows]. unfold file_write.
    destruct (f_faults f) as [|fault faults] eqn:E.
    + rewrite IH by (cbn; constructor). cbn [f_lines f_faults length map].
      rewrite drop_nil, <- app_assoc. reflexivity.
    + apply Forall_cons_1 in Hf as [-> Hf].
      rewrite IH by exact Hf. cbn [f_lines f_faults length map drop].
      now rewrite <- app_assoc.
Qed.

(** X8. A tick writes the rows that precede the failing write, in order, and
    none after it.  If the device fails at the [k]-th write of the tick, the
    file receives the first [k] rows of the batch, then the failure is
    printed and the file closed; the later rows of the batch are not
    written, though every sample of the batch is in the four rings: each
    ring holds its old entries followed by the matching component of every
    sample, less the oldest entries beyond [plot_len].  (The rings are taken
    within their capacity, which a [deque(maxlen=plot_len)] never exceeds.) *)
Theorem rows_before_the_fault_are_written
  (w : MainWindow) (f : file) (k : nat) (later : list bool) :
  is_saving w = true -> save_file w = Some f ->
  f_faults f = repeat false k ++ true :: later ->
  (k < length (temp_buffer w))%nat ->
  (length (data_ch1 w) <= plot_len w)%nat ->
  (length (data_ch2 w) <= plot_len w)%nat ->
  (length (data_ch3 w) <= plot_len w)%nat ->
  (length (data_ch4 w) <= plot_len w)%nat ->
  let rows := (temp_buffer w).*1 in
  (update_plot w).2
  = map (fun r => FileWrite (Row r)) (take k rows)
    ++ [Print MsgFileWriteFailed; FileClose] /\
  is_saving (update_plot w).1 = false /\
  save_file (update_plot w).1 = None /\
  data_ch1 (update_plot w).1
  = drop (length (data_ch1 w) + length rows - plot_len w)
      (data_ch1 w ++ map (fun '(a, _, _, _) => Py.Float a) rows) /\
  data_ch2 (update_plot w).1
  = drop (length (data_ch2 w) + length rows - plot_len w)
      (data_ch2 w ++ map (fun '(_, b, _, _) => Py.Float b) rows) /\
  data_ch3 (update_plot w).1
  = drop (length (data_ch3 w) + length rows - plot_len w)
      (data_ch3 w ++ map (fun '(_, _, c, _) => Py.Float c) rows) /\
  data_ch4 (update_plot w).1
  = drop (length (data_ch4 w) + length rows - plot_len w)
      (data_ch4 w ++ map (fun '(_, _, _, d) => Py.Float d) rows).
Proof.
  intros Hs Hf Hfaults Hk L1 L2 L3 L4 rows.
  assert (Hne : temp_buffer w <> []) by (intros E; rewrite E in Hk; cbn in Hk; lia).
  destruct (update_plot_drains w Hne) as (_ & _ & E1 & E2 & E3 & E4 & _).
  cbv zeta in E1, E2, E3, E4. fold rows in E1, E2, E3, E4.
  rewrite ring_after_batch in E1, E2, E3, E4 by assumption.
  destruct (column_components rows) as (C1 & C2 & C3 & C4).
  rewrite C1 in E1. rewrite C2 in E2. rewrite C3 in E3. rewrite C4 in E4.
  split; [|split; [|split; [|exact (conj E1 (conj E2 (conj E3 E4)))]]];
    unfold update_plot;
    (destruct (temp_buffer w) as [|e es] eqn:Hb; [congruence|]);
    rewrite Hs, Hf; fold rows;
    rewrite (write_rows_until_fault f rows k later Hfaults)
      by (subst rows; rewrite length_fmap; exact Hk);
    reflexivity.
Qed.

(** With four samples waiting and a device that fails at the third row, the
    file receives the first two rows and all four samples reach the rings. *)
Lemma rows_before_the_fault_are_written_witness :
  (update_plot failing_at_third_row).2
  = [FileWrite (Row (1, 2, 3, 4)%float); FileWrite (Row (5, 6, 7, 8)%float);
     Print MsgFileWriteFailed; FileClose] /\
  data_ch1 (update_plot failing_at_third_row).1
  = repeat (Py.Int 0) 996
    ++ [Py.Float 1; Py.Float 5; Py.Float 9; Py.Float 13] /\
  data_ch4 (update_plot failing_at_third_row).1
  = repeat (Py.Int 0) 996
    ++ [Py.Float 4; Py.Float 8; Py.Float 12; Py.Float 16].
Proof.
  destruct (rows_before_the_fault_are_written failing_at_third_row
              {| f_lines := [Header]; f_faults := [false; false; true] |}
              2 [] eq_refl eq_refl eq_refl ltac:(cbn; lia)
              (Nat.eq_le_incl _ _ eq_refl) (Nat.eq_le_incl _ _ eq_refl)
              (Nat.eq_le_incl _ _ eq_refl) (Nat.eq_le_incl _ _ eq_refl))
    as (Hout & _ & _ & H1 & _ & _ & H4).
  cbv zeta in Hout, H1, H4.
  split; [exact Hout|]. rewrite H1, H4. split; vm_compute; reflexivity.
Defined.

(** While the device does not fail, a series of ticks writes one row per
    delivered sample, in order. *)
Lemma ticks_saving (w : MainWindow) (f : file)
  (batches : list (list (sample * list byte))) :
  temp_buffer w = [] -> is_saving w = true -> save_file w = Some f ->
  Forall (fun fault => fault = false) (f_faults f) ->
  let rows := (concat batches).*1 in
  (ticks w batches).2 = map (fun r => FileWrite (Row r)) rows /\
  is_saving (ticks w batches).1 = true /\
  save_file (ticks w batches).1
  = Some {| f_lines := f_lines f ++ map Row rows;
            f_faults := drop (length rows) (f_faults f) |}.
Proof.
  revert w f. induction batches as [|batch batches IH]; intros w f Hb Hs Hf Hok.
  - cbn. rewrite app_nil_r. repeat split; [exact Hs|]. rewrite Hf. now destruct f.
  - cbn [ticks concat fst snd]. cbv zeta.
    rewrite deliver_spec, Hb. cbn [app].
    pose (w1 := with_temp_buffer w batch). fold w1.
    pose (f1 := {| f_lines := f_lines f ++ map Row batch.*1;
                   f_faults := drop (length batch.*1) (f_faults f) |}).
    assert (H1 : (update_plot w1).2 = map (fun r => FileWrite (Row r)) batch.*1
                 /\ is_saving (update_plot w1).1 = true
                 /\ save_file (update_plot w1).1 = Some f1).
    { destruct batch as [|e es].
      - assert (Hw : w1 = w)
          by (unfold w1; rewrite <- Hb; apply with_temp_buffer_id).
        rewrite Hw, (update_plot_idle w Hb). cbn [fst snd fmap list_fmap map].
        repeat split; [exact Hs|]. rewrite Hf. unfold f1. cbn.
        rewrite app_nil_r. now destruct f.
      - unfold update_plot.
        change (temp_buffer w1) with (e :: es).
        change (is_saving w1) with (is_saving w).
        change (save_file w1) with (save_file w).
        rewrite Hs, Hf, (write_rows_no_fault f _ Hok). cbn. auto. }
    destruct H1 as (Hout & Hs1 & Hf1).
    assert (Hok1 : Forall (fun fault => fault = false) (f_faults f1))
      by (unfold f1; cbn [f_faults]; now apply Forall_drop).
    destruct (IH (update_plot w1).1 f1 (update_plot_temp_buffer w1) Hs1 Hf1 Hok1)
      as (Hout' & Hs' & Hf').
    rewrite Hout, Hout', Hs', Hf'. unfold f1. cbn [f_lines f_faults].
    rewrite fmap_app, !map_app, length_app, <- app_assoc, drop_drop.
    repeat split; reflexivity.
Qed.

(** X9. While the device does not fail, the log is complete and in order.
    After [start_save] on a fresh file, any series of ticks leaves in the
    file the header followed by one row per delivered sample, in arrival
    order, each written exactly once, and logging stays on. *)
Theorem log_holds_every_sample_once
  (w : MainWindow) (f : file) (batches : list (list (sample * list byte))) :
  temp_buffer w = [] ->
  Forall (fun fault => fault = false) (f_faults f) ->
  let started := start_save w (Some (Ok f)) in
  let logged := ticks started.1 batches in
  let rows := (concat batches).*1 in
  started.2 = [FileWrite Header] /\
  logged.2 = map (fun r => FileWrite (Row r)) rows /\
  is_saving logged.1 = true /\
  exists f', save_file logged.1 = Some f' /\
             f_lines f' = f_lines f ++ Header :: map Row rows.
Proof.
  intros Hb Hok started logged rows.
  assert (Hw : file_write f Header
               = Ok {| f_lines := f_lines f ++ [Header];
                       f_faults := drop 1 (f_faults f) |}).
  { unfold file_write. destruct (f_faults f) as [|fault faults]; [reflexivity|].
    apply Forall_cons_1 in Hok as [-> _]. reflexivity. }
  subst started logged. unfold start_save. rewrite Hw. cbn [fst snd].
  split; [reflexivity|].
  destruct (ticks_saving
              (with_saving w true
                 (Some {| f_lines := f_lines f ++ [Header];
                          f_faults := drop 1 (f_faults f) |}))
              _ batches Hb eq_refl eq_refl)
    as (Hout & Hs & Hf); [cbn [f_faults]; now apply Forall_drop|].
  fold rows in Hout, Hf. split; [exact Hout|]. split; [exact Hs|].
  eexists. split; [exact Hf|]. cbn [f_lines]. now rewrite <- app_assoc.
Qed.

Lemma log_holds_every_sample_once_witness :
  exists f',
    save_file (ticks (start_save MainWindow_init
                        (Some (Ok {| f_lines := []; f_faults := [] |}))).1
                 [six_signals; []; take 2 six_signals]).1 = Some f' /\
    f_lines f' = Header :: map Row (six_signals ++ take 2 six_signals).*1.
Proof.
  destruct (log_holds_every_sample_once MainWindow_init
              {| f_lines := []; f_faults := [] |}
              [six_signals; []; take 2 six_signals] eq_refl
              ltac:(constructor))
    as (_ & _ & _ & f' & Hf & Hl).
  exists f'. split; [exact Hf|exact Hl].
Defined.

(** ** The packet loop *)

Lemma bytearray_append_Ok (p : list byte) (v : Z) (p' : list byte) :
  Py.bytearray_append p v = Ok p' <->
  exists b, v = Py.int_of_byte b /\ p' = p ++ [b].
Proof.
  unfold Py.bytearray_append, Py.int_of_byte. split.
  - destruct ((0 <=? v) && (v <=? 255)) eqn:Hr; [|discriminate].
    destruct (Byte.of_N (Z.to_N v)) as [b|] eqn:Hb; [|discriminate].
    cbn. intros [= <-]. exists b. split; [|reflexivity].
    apply Byte.to_of_N in Hb. lia.
  - intros (b & -> & ->). pose proof (Byte.to_N_bounded b) as Hb.
    replace ((0 <=? Z.of_N (Byte.to_N b)) && (Z.of_N (Byte.to_N b) <=? 255))
      with true by (symmetry; apply andb_true_iff; lia).
    now rewrite N2Z.id, Byte.of_to_N.
Qed.

(** The loop, with the bytes already in the packet. *)
Lemma build_packet_item_byte (items : list send_item) (p packet : list byte) :
  build_packet items p = Ok packet <->
  exists bs, Forall2 item_byte items bs /\ packet = p ++ bs.
Proof.
  revert p. induction items as [|item items IH]; intros p.
  - cbn. split.
    + intros [= <-]. exists []. split; [constructor|now rewrite app_nil_r].
    + intros (bs & Hbs & ->). apply Forall2_nil_inv_l in Hbs as ->.
      now rewrite app_nil_r.
  - destruct item as [val|t]; cbn [build_packet].
    + split.
      * destruct (Py.bytearray_append p val) as [p'|e] eqn:Ha; [|discriminate].
        cbn [bind]. intros H. apply IH in H as (bs & Hbs & ->).
        apply bytearray_append_Ok in Ha as (b & -> & ->).
        exists (b :: bs). split; [now constructor|now rewrite <- app_assoc].
      * intros (bs & Hbs & ->). apply Forall2_cons_inv_l in Hbs
          as (b & bs' & Hb & Hbs' & ->). cbn in Hb.
        rewrite (proj2 (bytearray_append_Ok p val (p ++ [b])))
          by (exists b; auto).
        cbn [bind]. apply IH. exists bs'. split; [assumption|].
        now rewrite <- app_assoc.
    + split.
      * intros H.
        destruct (Py.strip t) as [|c text] eqn:Hs.
        -- cbn in H. apply IH in H as (bs & Hbs & ->).
           exists (x00 :: bs). split; [|now rewrite <- app_assoc].
           constructor; [|assumption]. cbn. now rewrite Hs.
        -- destruct (Py.int_base16 (String c text)) as [val|e] eqn:Hv;
             [|discriminate]. cbn [bind] in H.
           destruct (negb ((0 <=? val) && (val <=? 255))); [discriminate|].
           destruct (Py.bytearray_append p val) as [p'|e] eqn:Ha; [|discriminate].
           cbn [bind] in H. apply IH in H as (bs & Hbs & ->).
           apply bytearray_append_Ok in Ha as (b & -> & ->).
           exists (b :: bs). split; [|now rewrite <- app_assoc].
           constructor; [|assumption]. cbn. now rewrite Hs.
      * intros (bs & Hbs & ->). apply Forall2_cons_inv_l in Hbs
          as (b & bs' & Hb & Hbs' & ->). cbn in Hb.
        assert (Htail : build_packet items (p ++ [b]) = Ok (p ++ b :: bs')).
        { apply IH. exists bs'. split; [assumption|]. now rewrite <- app_assoc. }
        pose proof (int_of_byte_range b) as Hr.
        destruct (Py.strip t) as [|c text].
        -- subst b. cbn. exact Htail.
        -- rewrite Hb. cbn [bind].
           replace ((0 <=? Py.int_of_byte b) && (Py.int_of_byte b <=? 255))
             with true by (symmetry; apply andb_true_iff; lia).
           cbn [negb].
           rewrite (proj2 (bytearray_append_Ok p _ (p ++ [b])))
             by (exists b; auto).
           exact Htail.
Qed.

(** X10. The packet has one byte per entry of [send_structure], in order.
    The loop of [construct_and_send] succeeds exactly when every entry has
    a byte -- a fixed entry a value within 0..255, a field a stripped text
    that is empty (byte 0x00) or reads in base 16 as a value within 0..255
    -- and the packet is then the list of these bytes; a connected window
    with a working port writes exactly this packet. *)
Theorem packet_has_one_byte_per_entry (w : MainWindow) (packet : list byte) :
  (build_packet (send_structure w) [] = Ok packet <->
   Forall2 item_byte (send_structure w) packet) /\
  (build_packet (send_structure w) [] = Ok packet ->
   length packet = length (send_structure w) /\
   (is_running (serial_thread w) = true ->
    sp_is_open (serial_port (serial_thread w)) = true ->
    sp_write_fails (serial_port (serial_thread w)) = false ->
    sp_written (serial_port (serial_thread (construct_and_send w).1))
    = sp_written (serial_port (serial_thread w)) ++ [packet])).
Proof.
  assert (Hiff : build_packet (send_structure w) [] = Ok packet <->
                 Forall2 item_byte (send_structure w) packet).
  { rewrite build_packet_item_byte. split.
    - now intros (bs & Hbs & ->).
    - intros H. now exists packet. }
  split; [exact Hiff|]. intros Hb. split.
  - symmetry. eapply Forall2_length, Hiff, Hb.
  - intros Hrun Hopen Hok. now apply construct_and_send_writes.
Qed.

(** X11. What the raw-hex box shows can be typed back.  Fields filled with
    the two-digit texts that the display uses for some bytes build exactly
    these bytes. *)
Theorem displayed_bytes_read_back (bs : list byte) :
  build_packet (map (fun b => Field (Py.format_02X b)) bs) [] = Ok bs.
Proof.
  apply build_packet_item_byte. exists bs. split; [|reflexivity].
  induction bs as [|b bs IH]; constructor; [|exact IH].
  unfold item_byte. destruct b; vm_compute; reflexivity.
Qed.

(** X12. The raw-hex line of a frame determines the frame. *)
Theorem hex_str_is_injective (f1 f2 : list byte) :
  hex_str f1 = hex_str f2 -> f1 = f2.
Proof.
  assert (Hfmt : forall b b', Py.format_02X b = Py.format_02X b' -> b = b').
  { intros b b' H.
    pose proof (proj2 (proj2 (format_02X_spec b))) as Hb.
    pose proof (proj2 (proj2 (format_02X_spec b'))) as Hb'.
    rewrite H, Hb' in Hb. injection Hb as Hb. unfold Py.int_of_byte in Hb.
    apply N2Z.inj in Hb.
    pose proof (Byte.of_to_N b) as E1. pose proof (Byte.of_to_N b') as E2.
    rewrite Hb in E2. congruence. }
  assert (Hshape : forall b, exists c1 c2,
             Py.format_02X b = String c1 (String c2 EmptyString))
    by (intros b; unfold Py.format_02X; eauto).
  revert f2. induction f1 as [|b1 f1 IH]; intros [|b2 f2] H.
  - reflexivity.
  - rewrite hex_str_cons in H. destruct (Hshape b2) as (c1 & c2 & E).
    rewrite E in H. destruct f2; discriminate H.
  - rewrite hex_str_cons in H. destruct (Hshape b1) as (c1 & c2 & E).
    rewrite E in H. destruct f1; discriminate H.
  - rewrite !hex_str_cons in H.
    destruct (Hshape b1) as (c1 & c2 & E1), (Hshape b2) as (c1' & c2' & E2).
    destruct f1 as [|a1 f1], f2 as [|a2 f2].
    + now rewrite (Hfmt _ _ H).
    + rewrite E1, E2 in H. discriminate H.
    + rewrite E1, E2 in H. discriminate H.
    + assert (Py.format_02X b1 = Py.format_02X b2 /\
              hex_str (a1 :: f1) = hex_str (a2 :: f2)) as [Hb Hf].
      { rewrite E1, E2 in *. cbn in H. injection H as -> -> H. auto. }
      now rewrite (Hfmt _ _ Hb), (IH _ Hf).
Qed.

Lemma hex_str_is_injective_witness :
  example_frame x00 = take 40 (example_frame x00 ++ [x01]).
Proof.
  apply (hex_str_is_injective (example_frame x00)
           (take 40 (example_frame x00 ++ [x01]))).
  vm_compute. reflexivity.
Defined.

Lemma packet_has_one_byte_per_entry_witness :
  Forall2 item_byte (send_structure connected) all_zero_packet.
Proof.
  apply (proj1 (proj1 (packet_has_one_byte_per_entry connected all_zero_packet))).
  vm_compute. reflexivity.
Defined.

(** ** Connecting, sending, disconnecting *)

(** The presets map to the gain indices 0 to 3. *)
Lemma FREQ_G_MAP_range (name : string) (g : Z) :
  FREQ_G_MAP !! name = Some g -> 0 <= g <= 3.
Proof.
  unfold FREQ_G_MAP. rewrite !lookup_insert_Some, lookup_empty.
  intros [[_ <-]|[_ [[_ <-]|[_ [[_ <-]|[_ [[_ <-]|[_ [=]]]]]]]]]; lia.
Qed.

(** What [update_coeff_only] does for a selected preset. *)
Lemma update_coeff_only_preset (w : MainWindow) (g : Z) :
  FREQ_G_MAP !! combo_freq w = Some g ->
  exists nf na,
    calculate_coeffs g = Ok (Py.Float nf, Py.Int na) /\
    update_coeff_only w
    = Ok (with_thread w (with_coeffs (serial_thread w)
                           [Py.Float nf; Py.Float nf; Py.Int na; Py.Int na]),
          [Print (MsgCoeffs g (Py.Float nf) (Py.Int na))]).
Proof.
  intros Hg. destruct (coeffs_table g (FREQ_G_MAP_range _ _ Hg))
    as (nf & na & Hc & _).
  exists nf, na. split; [exact Hc|].
  unfold update_coeff_only, update_frequency_gain. rewrite Hg. cbn [of_option bind].
  rewrite Hc. reflexivity.
Qed.

(** X13. A send switches the decoder to the selected preset whether or not
    the bytes went out.  Once the packet is built, the coefficients are
    those of the preset shown in the frequency box; the buffer and the
    channel are untouched; and when the port is closed or its write fails,
    nothing is recorded as written although the coefficients have
    changed. *)
Theorem send_selects_the_preset
  (w : MainWindow) (packet : list byte) (g : Z) :
  is_running (serial_thread w) = true ->
  build_packet (send_structure w) [] = Ok packet ->
  FREQ_G_MAP !! combo_freq w = Some g ->
  let w' := (construct_and_send w).1 in
  preset_coeffs g (current_coeffs (serial_thread w')) /\
  buffer (serial_thread w') = buffer (serial_thread w) /\
  temp_buffer w' = temp_buffer w /\
  (sp_is_open (serial_port (serial_thread w)) = false \/
   sp_write_fails (serial_port (serial_thread w)) = true ->
   sp_written (serial_port (serial_thread w'))
   = sp_written (serial_port (serial_thread w))).
Proof.
  intros Hrun Hb Hg w'. subst w'. unfold construct_and_send.
  rewrite Hrun, Hb. cbn [negb].
  set (s := send_data (serial_thread w) packet).
  assert (Hs : buffer s.1 = buffer (serial_thread w) /\
               (sp_is_open (serial_port (serial_thread w)) = false \/
                sp_write_fails (serial_port (serial_thread w)) = true ->
                s.1 = serial_thread w)).
  { subst s. unfold send_data.
    destruct (sp_is_open (serial_port (serial_thread w))),
             (sp_write_fails (serial_port (serial_thread w)));
      cbn; split; auto; intros [?|?]; discriminate. }
  destruct Hs as [Hbuf Hsame].
  destruct (update_coeff_only_preset (with_thread w s.1) g Hg)
    as (nf & na & Hc & ->).
  cbn [fst serial_thread with_thread current_coeffs with_coeffs buffer
       temp_buffer serial_port].
  split; [split; [exact (FREQ_G_MAP_range _ _ Hg)|now exists nf, na]|].
  split; [exact Hbuf|]. split; [reflexivity|].
  intros H. now rewrite (Hsame H).
Qed.

Lemma send_selects_the_preset_witness :
  preset_coeffs 0
    (current_coeffs (serial_thread (construct_and_send connected_write_fails).1)) /\
  sp_written (serial_port
                (serial_thread (construct_and_send connected_write_fails).1))
  = [].
Proof.
  destruct (send_selects_the_preset connected_write_fails all_zero_packet 0
              eq_refl eq_refl eq_refl) as (Hp & _ & _ & Hw).
  split; [exact Hp|exact (Hw (or_intror eq_refl))].
Defined.

(** With logging off, ticks write nothing, whatever waits in the channel. *)
Lemma ticks_quiet (w : MainWindow)
  (batches : list (list (sample * list byte))) :
  is_saving w = false ->
  (ticks w batches).2 = [] /\ is_saving (ticks w batches).1 = false.
Proof.
  revert w. induction batches as [|batch batches IH]; intros w Hs; [now split|].
  cbn [ticks fst snd]. cbv zeta.
  assert (Hs1 : is_saving (deliver w batch) = false)
    by (rewrite deliver_spec; exact Hs).
  destruct (update_plot_not_saving _ Hs1) as (Hout & Hs2 & _).
  destruct (IH _ Hs2) as (Hout' & Hs').
  now rewrite Hout, Hout', Hs'.
Qed.

(** X14. Disconnecting ends logging and acquisition.  Un-checking the
    connect button closes the log file if one is open (once: a second
    [stop_save], as [closeEvent] makes, closes nothing), switches logging
    off, stops the thread and closes the port; afterwards the thread
    ignores the port and ticks write nothing.  The bytes left in the buffer
    and the samples waiting in the channel are not discarded. *)
Theorem disconnect_stops_logging_and_acquisition
  (w : MainWindow) (port : string) (opens : bool)
  (evs : list port_event) (batches : list (list (sample * list byte))) :
  let r := toggle_serial w false port opens in
  let w' := r.1.1 in
  r.2 = None /\
  r.1.2 = match save_file w with Some _ => [FileClose] | None => [] end /\
  is_saving w' = false /\ save_file w' = None /\
  is_running (serial_thread w') = false /\
  sp_is_open (serial_port (serial_thread w')) = false /\
  buffer (serial_thread w') = buffer (serial_thread w) /\
  temp_buffer w' = temp_buffer w /\
  closeEvent w' = (w', []) /\
  run (serial_thread w') evs = (serial_thread w', []) /\
  (ticks w' batches).2 = [].
Proof.
  intros r w'. subst r w'. unfold toggle_serial. cbn [fst snd].
  assert (E1 : (stop_save w).1 = with_saving w false None)
    by (unfold stop_save; now destruct (save_file w)).
  assert (E2 : (stop_save w).2
               = match save_file w with Some _ => [FileClose] | None => [] end)
    by (unfold stop_save; now destruct (save_file w)).
  rewrite E1, E2.
  cbn [serial_thread with_saving with_thread is_saving save_file temp_buffer].
  set (t := serial_thread w).
  assert (Hc : is_running (close_port t) = false /\
               sp_is_open (serial_port (close_port t)) = false /\
               buffer (close_port t) = buffer t).
  { unfold close_port. cbn [serial_port with_running].
    destruct (sp_is_open (serial_port t)) eqn:Ho; cbn; auto. }
  destruct Hc as (Hr & Ho & Hb).
  repeat (split; [assumption || reflexivity|]).
  split; [|apply ticks_quiet; reflexivity].
  now apply run_stopped.
Qed.

(** X15. Connecting.  With a port selected and a preset in the frequency
    box, a successful connect leaves the thread running on the open port
    with the coefficients of that preset, and keeps whatever bytes the
    buffer held from before; a refused connect prints the failure, shows the
    error box and leaves thread and coefficients as they were; with no port
    selected nothing happens. *)
Theorem connect_selects_the_preset (w : MainWindow) (port : string) (g : Z) :
  port <> EmptyString -> FREQ_G_MAP !! combo_freq w = Some g ->
  let ok := toggle_serial w true port true in
  let refused := toggle_serial w true port false in
  (ok.2 = None /\
   is_running (serial_thread ok.1.1) = true /\
   sp_is_open (serial_port (serial_thread ok.1.1)) = true /\
   port_name (serial_thread ok.1.1) = port /\
   preset_coeffs g (current_coeffs (serial_thread ok.1.1)) /\
   buffer (serial_thread ok.1.1) = buffer (serial_thread w)) /\
  (refused.1.2 = [Print MsgOpenFailed; MessageBox BoxCritical] /\
   is_running (serial_thread refused.1.1) = is_running (serial_thread w) /\
   serial_port (serial_thread refused.1.1) = serial_port (serial_thread w) /\
   current_coeffs (serial_thread refused.1.1)
   = current_coeffs (serial_thread w)) /\
  forall opens, toggle_serial w true EmptyString opens = (w, [], None).
Proof.
  intros Hport Hg ok refused. subst ok refused.
  destruct port as [|c port]; [congruence|].
  unfold toggle_serial, open_port. cbn match.
  destruct (update_coeff_only_preset
              (with_thread w
                 (with_running
                    (with_port (with_port_name (serial_thread w) (String c port))
                       {| sp_is_open := true;
                          sp_written := sp_written (serial_port (with_port_name (serial_thread w) (String c port)));
                          sp_write_fails := sp_write_fails (serial_port (with_port_name (serial_thread w) (String c port))) |})
                    true)) g Hg) as (nf & na & Hc & ->).
  cbn. repeat split; try reflexivity.
  - exact (proj1 (FREQ_G_MAP_range _ _ Hg)).
  - exact (proj2 (FREQ_G_MAP_range _ _ Hg)).
  - now exists nf, na.
Qed.

Lemma connect_selects_the_preset_witness :
  is_running (serial_thread (toggle_serial MainWindow_init true "COM3" true).1.1)
  = true /\
  preset_coeffs 0
    (current_coeffs
       (serial_thread (toggle_serial MainWindow_init true "COM3" true).1.1)).
Proof.
  destruct (connect_selects_the_preset MainWindow_init "COM3" 0
              ltac:(discriminate) eq_refl) as ((_ & Hr & _ & _ & Hp & _) & _).
  split; [exact Hr|exact Hp].
Defined.

(** ** The range of the coefficient formulas *)

Lemma float_125_is_not_zero : PrimFloat.eqb 125 0 = false.
Proof. vm_compute. reflexivity. Qed.

Lemma overflow_threshold_bounds :
  21 * 2 ^ 1017 < Py.overflow_threshold <= 21 * 2 ^ 1023.
Proof. split; vm_compute; [reflexivity | intros H; discriminate H]. Qed.

(** X16. Where [calculate_coeffs] is defined.  For a gain index from -4 to
    161 it returns a float [nf] and the int [na = 2^(24+6g)]; from 162 on
    the conversion of [21 * 2^(6g+51)] to a float overflows and it raises
    [OverflowError], before [na] is computed. *)
Theorem calculate_coeffs_range (g : Z) :
  (-4 <= g <= 161 ->
   calculate_coeffs g
   = Ok (Py.Float (PrimFloat.div (Py.round_scaled (21 * 2 ^ (6 * g + 51)) 0) 125),
         Py.Int (2 ^ (24 + 6 * g)))) /\
  (162 <= g -> calculate_coeffs g = Raise OverflowError).
Proof.
  pose proof overflow_threshold_bounds as [Hlo Hhi].
  unfold calculate_coeffs, Py.pow2. split; intros Hg.
  - destruct (Z.leb_spec 0 (6 * g + 51)) as [_|?]; [|lia].
    destruct (Z.leb_spec 0 (24 + 6 * g)) as [_|?]; [|lia].
    cbn [bind Py.mul Py.truediv]. unfold Py.float_of_int.
    assert (Hp : 0 < 2 ^ (6 * g + 51) <= 2 ^ 1017)
      by (split; [apply Z.pow_pos_nonneg; lia | apply Z.pow_le_mono_r; lia]).
    set (p := 2 ^ (6 * g + 51)) in *. set (m := 2 ^ 1017) in *.
    destruct (Z.ltb_spec (Z.abs (21 * p)) Py.overflow_threshold) as [_|?]; [|lia].
    cbn [bind]. unfold Py.float_truediv. rewrite float_125_is_not_zero.
    reflexivity.
  - destruct (Z.leb_spec 0 (6 * g + 51)) as [_|?]; [|lia].
    cbn [bind Py.mul Py.truediv]. unfold Py.float_of_int.
    assert (Hp : 2 ^ 1023 <= 2 ^ (6 * g + 51)) by (apply Z.pow_le_mono_r; lia).
    set (p := 2 ^ (6 * g + 51)) in *. set (m := 2 ^ 1023) in *.
    destruct (Z.ltb_spec (Z.abs (21 * p)) Py.overflow_threshold) as [?|_]; [lia|].
    reflexivity.
Qed.

Lemma calculate_coeffs_range_witness :
  calculate_coeffs 200 = Raise OverflowError /\
  exists nf, calculate_coeffs 100 = Ok (Py.Float nf, Py.Int (2 ^ 624)).
Proof.
  split.
  - apply (proj2 (calculate_coeffs_range 200)). lia.
  - eexists. apply (proj1 (calculate_coeffs_range 100)). lia.
Defined.

(** ** Ticks and batches *)

(** The rings after a series of ticks, whatever happens to the log. *)
Lemma ticks_rings (w : MainWindow)
  (batches : list (list (sample * list byte))) :
  temp_buffer w = [] ->
  let w' := (ticks w batches).1 in
  let rows := (concat batches).*1 in
  temp_buffer w' = [] /\ plot_len w' = plot_len w /\
  data_ch1 w' = Py.deque_extend (plot_len w) (data_ch1 w) (column 0 rows) /\
  data_ch2 w' = Py.deque_extend (plot_len w) (data_ch2 w) (column 1 rows) /\
  data_ch3 w' = Py.deque_extend (plot_len w) (data_ch3 w) (column 2 rows) /\
  data_ch4 w' = Py.deque_extend (plot_len w) (data_ch4 w) (column 3 rows).
Proof.
  revert w. induction batches as [|batch batches IH]; intros w Hb.
  - cbn. repeat split; assumption || reflexivity.
  - cbn [ticks concat fst snd]. cbv zeta.
    rewrite deliver_spec, Hb. cbn [app].
    pose (w1 := with_temp_buffer w batch). fold w1.
    destruct (IH (update_plot w1).1 (update_plot_temp_buffer w1))
      as (Hb' & Hp & H1 & H2 & H3 & H4).
    assert (Hrings :
      data_ch1 (update_plot w1).1
      = Py.deque_extend (plot_len w) (data_ch1 w) (column 0 batch.*1) /\
      data_ch2 (update_plot w1).1
      = Py.deque_extend (plot_len w) (data_ch2 w) (column 1 batch.*1) /\
      data_ch3 (update_plot w1).1
      = Py.deque_extend (plot_len w) (data_ch3 w) (column 2 batch.*1) /\
      data_ch4 (update_plot w1).1
      = Py.deque_extend (plot_len w) (data_ch4 w) (column 3 batch.*1)).
    { destruct batch as [|e es].
      - assert (Hw : w1 = w)
          by (unfold w1; rewrite <- Hb; apply with_temp_buffer_id).
        rewrite Hw, (update_plot_idle w Hb). cbn. repeat split; reflexivity.
      - destruct (update_plot_drains w1 ltac:(discriminate))
          as (_ & _ & E1 & E2 & E3 & E4 & _).
        exact (conj E1 (conj E2 (conj E3 E4))). }
    destruct Hrings as (R1 & R2 & R3 & R4).
    rewrite Hb', Hp, H1, H2, H3, H4, R1, R2, R3, R4.
    rewrite update_plot_plot_len, fmap_app, !column_app, !deque_extend_app.
    repeat split; reflexivity.
Qed.

(** X17. The rings do not depend on how the samples fall into ticks.
    Starting from an empty channel, a series of ticks, each after a batch
    of signals, leaves the four rings as a single tick after all the
    signals does -- whether logging is on, off or failing. *)
Theorem rings_do_not_depend_on_ticks
  (w : MainWindow) (batches : list (list (sample * list byte))) :
  temp_buffer w = [] ->
  let many := (ticks w batches).1 in
  let one := (ticks w [concat batches]).1 in
  data_ch1 many = data_ch1 one /\ data_ch2 many = data_ch2 one /\
  data_ch3 many = data_ch3 one /\ data_ch4 many = data_ch4 one /\
  temp_buffer many = [] /\ temp_buffer one = [].
Proof.
  intros Hb many one.
  destruct (ticks_rings w batches Hb) as (Hb1 & _ & A1 & A2 & A3 & A4).
  destruct (ticks_rings w [concat batches] Hb) as (Hb2 & _ & B1 & B2 & B3 & B4).
  cbn [concat] in B1, B2, B3, B4. rewrite app_nil_r in B1, B2, B3, B4.
  subst many one. rewrite A1, A2, A3, A4, B1, B2, B3, B4.
  repeat split; assumption.
Qed.

Lemma rings_do_not_depend_on_ticks_witness :
  data_ch1 (ticks MainWindow_init
              [take 2 six_signals; []; drop 2 six_signals]).1
  = data_ch1 (ticks MainWindow_init
                [concat [take 2 six_signals; []; drop 2 six_signals]]).1.
Proof.
  exact (proj1 (rings_do_not_depend_on_ticks MainWindow_init
                  [take 2 six_signals; []; drop 2 six_signals] eq_refl)).
Defined.
